(** * RequestExecutor of the http-test core: a shallow embedding

    The development follows [src/http-test-core/RequestExecutor.ts].
    JavaScript strings are modelled by Rocq strings, one character per code
    unit; the model is exact for texts whose code units are below 256 (the
    line terminators U+2028/U+2029 and the wide white-space characters are
    not representable).  Objects used as string maps ([Record<string,string>])
    are [gmap string string].  Calls to the logger are pure output and are
    left out. *)

From Stdlib Require Import ZArith Ascii String List Lia.
From stdpp Require Import base option gmap strings list fin_maps pretty.

Local Open Scope Z_scope.

(** ** JavaScript string operations used by the executor *)

Module Js.

Definition code (c : ascii) : N := N_of_ascii c.

(** White space removed by [String.prototype.trim] (code units < 256). *)
Definition is_space (c : ascii) : bool :=
  let n := code c in
  ((9 <=? n)%N && (n <=? 13)%N) || (n =? 32)%N || (n =? 160)%N.

(** Characters that the regular expression [.] does not match. *)
Definition is_line_terminator (c : ascii) : bool :=
  let n := code c in (n =? 10)%N || (n =? 13)%N.

Fixpoint length (s : string) : nat :=
  match s with
  | EmptyString => O
  | String _ s' => S (length s')
  end.

Fixpoint all_space (s : string) : bool :=
  match s with
  | EmptyString => true
  | String c s' => is_space c && all_space s'
  end.

Fixpoint trim_start (s : string) : string :=
  match s with
  | EmptyString => EmptyString
  | String c s' => if is_space c then trim_start s' else s
  end.

(** [trim_end]: a character is kept when something that is not white space
    follows it or it is not white space itself. *)
Fixpoint trim_end (s : string) : string :=
  match s with
  | EmptyString => EmptyString
  | String c s' => if all_space s then EmptyString else String c (trim_end s')
  end.

Definition trim (s : string) : string := trim_end (trim_start s).

(** [strip_prefix p s]: the rest of [s] after the prefix [p], if any. *)
Fixpoint strip_prefix (p s : string) : option string :=
  match p with
  | EmptyString => Some s
  | String a p' =>
      match s with
      | EmptyString => None
      | String b s' => if Ascii.eqb a b then strip_prefix p' s' else None
      end
  end.

Definition starts_with (p s : string) : bool :=
  match strip_prefix p s with Some _ => true | None => false end.

(** [String.prototype.includes]. *)
Fixpoint includes (needle s : string) : bool :=
  starts_with needle s ||
  match s with
  | EmptyString => false
  | String _ s' => includes needle s'
  end.

(** [String.prototype.split] with a string separator.  [skip] counts the
    characters of a separator that was just recognised and is still to be
    dropped; [cur] is the piece under construction, reversed. *)
Fixpoint rev_onto (acc s : string) : string :=
  match s with
  | EmptyString => acc
  | String c s' => rev_onto (String c acc) s'
  end.

Fixpoint split_go (sep : string) (skip : nat) (cur : string) (s : string)
  : list string :=
  match s with
  | EmptyString => [rev_onto EmptyString cur]
  | String c s' =>
      match skip with
      | S k => split_go sep k cur s'
      | O =>
          if starts_with sep s
          then rev_onto EmptyString cur
                 :: split_go sep (Nat.pred (length sep)) EmptyString s'
          else split_go sep O (String c cur) s'
      end
  end.

Fixpoint chars (s : string) : list string :=
  match s with
  | EmptyString => []
  | String c s' => String c EmptyString :: chars s'
  end.

Definition split (sep s : string) : list string :=
  match sep with
  | EmptyString => chars s
  | _ => split_go sep O EmptyString s
  end.

(** [Array.prototype.join] on strings. *)
Fixpoint join (sep : string) (pieces : list string) : string :=
  match pieces with
  | [] => EmptyString
  | [piece] => piece
  | piece :: rest => piece +:+ sep +:+ join sep rest
  end.

(** [String.prototype.toLowerCase] on code units below 256. *)
Definition lower_char (c : ascii) : ascii :=
  let n := code c in
  if ((65 <=? n)%N && (n <=? 90)%N)
     || ((192 <=? n)%N && (n <=? 222)%N && negb (n =? 215)%N)
  then ascii_of_N (n + 32) else c.

Fixpoint toLowerCase (s : string) : string :=
  match s with
  | EmptyString => EmptyString
  | String c s' => String (lower_char c) (toLowerCase s')
  end.

(** Truthiness of a string value: every string but the empty one. *)
Definition truthy (s : string) : bool :=
  match s with EmptyString => false | _ => true end.

(** [a || b] on values that are a string or [undefined]. *)
Definition or_else (a b : option string) : option string :=
  match a with
  | Some s => if truthy s then a else b
  | None => b
  end.

End Js.


(** ** The regular expressions of the executor

    The four patterns of the source are sequences of literals, one-or-more
    [.] groups (lazy or greedy, each a capture group) and the end anchor.
    [match_here] is the backtracking matcher of ECMAScript restricted to
    these items; [search] tries every start position from the left, as
    [String.prototype.match] does for a pattern without the [g] flag.  The
    result lists the capture groups in order. *)

Module Re.

Inductive item :=
| Lit (l : string)      (* literal text *)
| LazyGroup             (* (.+?) *)
| GreedyGroup           (* (.+)  *)
| End.                  (* $     *)

Definition cons_first (c : ascii) (caps : list string) : option (list string) :=
  match caps with
  | cap :: rest => Some (String c cap :: rest)
  | [] => None
  end.

Fixpoint match_here (p : list item) (s : string) : option (list string) :=
  match p with
  | [] => Some []
  | Lit l :: p' =>
      match Js.strip_prefix l s with
      | Some s' => match_here p' s'
      | None => None
      end
  | End :: p' =>
      match s with
      | EmptyString => match_here p' EmptyString
      | _ => None
      end
  | LazyGroup :: p' =>
      (fix lazy (s : string) : option (list string) :=
         match s with
         | EmptyString => None
         | String c s' =>
             if Js.is_line_terminator c then None
             else match match_here p' s' with
                  | Some caps => Some (String c EmptyString :: caps)
                  | None => lazy s' ≫= cons_first c
                  end
         end) s
  | GreedyGroup :: p' =>
      (fix greedy (s : string) : option (list string) :=
         match s with
         | EmptyString => None
         | String c s' =>
             if Js.is_line_terminator c then None
             else match greedy s' ≫= cons_first c with
                  | Some caps => Some caps
                  | None =>
                      match match_here p' s' with
                      | Some caps => Some (String c EmptyString :: caps)
                      | None => None
                      end
                  end
         end) s
  end.

Fixpoint search (p : list item) (s : string) : option (list string) :=
  match match_here p s with
  | Some caps => Some caps
  | None =>
      match s with
      | EmptyString => None
      | String _ s' => search p s'
      end
  end.

(** [/boundary=(.+)$/] *)
Definition boundary_re : list item := [Lit "boundary="; GreedyGroup; End].
(** [/(.+?): (.+)/] *)
Definition header_re : list item := [LazyGroup; Lit ": "; GreedyGroup].
(** The double quote character, as a string. *)
Definition dquote : string := String (ascii_of_N 34) EmptyString.

(** [/name="(.+?)"/] *)
Definition name_re : list item :=
  [Lit ("name=" +:+ dquote); LazyGroup; Lit dquote].
(** [/filename="(.+?)"/] *)
Definition filename_re : list item :=
  [Lit ("filename=" +:+ dquote); LazyGroup; Lit dquote].

End Re.


(** ** Values *)

(** JavaScript values that can reach [data]: the JSON values and
    [undefined].  A number is the decimal [mantissa * 10 ^ exponent] it is
    read from, in normal form (no trailing zero in the mantissa, zero is
    [(0, 0)]).  Of the rounding to a double only the underflow to zero,
    which decides whether a number is truthy, is modelled, where a number is
    read from a text; the sign of zero, the rounding of the other numbers
    and the overflow are not. *)
#[warnings="-register-all"]
Inductive JsValue :=
| JsUndefined
| JsNull
| JsBool (b : bool)
| JsNumber (mantissa exponent : Z)
| JsString (s : string)
| JsArray (items : list JsValue)
| JsObject (members : list (string * JsValue)).

(** Truthiness, as used by [||] and [if]. *)
Definition js_truthy (v : JsValue) : bool :=
  match v with
  | JsUndefined | JsNull => false
  | JsBool b => b
  | JsNumber m _ => negb (m =? 0)
  | JsString s => Js.truthy s
  | JsArray _ | JsObject _ => true
  end.

(** [a || b] *)
Definition js_or (a b : JsValue) : JsValue := if js_truthy a then a else b.

(** [typeof v === "string"] *)
Definition is_string (v : JsValue) : bool :=
  match v with JsString _ => true | _ => false end.

(** The requests and responses of [../types], by the fields that the
    executor reads; [tests] and [variableUpdates], which it only copies, are
    left out. *)
Record HttpRequest := mkHttpRequest {
  rq_name : string;
  rq_method : string;
  rq_url : string;
  rq_headers : gmap string string;
  rq_body : JsValue   (* string | object | undefined *)
}.

Record HttpResponse := mkHttpResponse {
  status : Z;
  headers : gmap string string;
  data : JsValue
}.

(** ** Thrown values and wire responses *)

Inductive ErrorClass :=
| PlainError        (* new Error(...) *)
| TypeError         (* raised by the engine *)
| RequestError      (* errors/RequestError *)
| LibraryError.     (* FetchError, AbortError, ... *)

(** A response of the HTTP library: its status, the entries of its headers
    and the outcome of reading its body with [text()].  A thrown value is an
    [Error] instance, with its message, its [type] property and its
    [response] property when it has them, or any other value, of which only
    the rendering [String(error)] is observed. *)
Inductive FetchResponse :=
| mkFetchResponse (status : Z) (entries : list (string * string))
                  (text : TextResult)
with TextResult :=
| TextOk (s : string)
| TextFails (t : Thrown)
with Thrown :=
| ThrownError (cls : ErrorClass) (message : string) (type : option string)
              (response : option FetchResponse)
| ThrownValue (shown : string).

Definition fr_status (r : FetchResponse) : Z :=
  match r with mkFetchResponse st _ _ => st end.
Definition fr_entries (r : FetchResponse) : list (string * string) :=
  match r with mkFetchResponse _ es _ => es end.
Definition fr_text (r : FetchResponse) : TextResult :=
  match r with mkFetchResponse _ _ t => t end.

(** Modelled from the spec: [new RequestError(message)] (the class
    errors/RequestError is not among the sources).  A RequestError is an
    [Error] of its own class made of a message; it has no [type] and no
    [response] property. *)
Definition newRequestError (message : string) : Thrown :=
  ThrownError RequestError message None None.

(** [new Error(message)] *)
Definition newError (message : string) : Thrown :=
  ThrownError PlainError message None None.

(** Result of code that may throw. *)
Inductive result (A : Type) :=
| Return (a : A)
| Throw (t : Thrown).
Arguments Return {A} a.
Arguments Throw {A} t.

Definition rbind {A B} (r : result A) (k : A -> result B) : result B :=
  match r with
  | Return a => k a
  | Throw t => Throw t
  end.

(** [Object.fromEntries]: later entries overwrite earlier ones. *)
Definition fromEntries (es : list (string * string)) : gmap string string :=
  fold_left (fun m kv => <[kv.1 := kv.2]> m) es ∅.

(** ** Multipart form data *)

Record FormOptions := mkFormOptions {
  opt_filename : option string;
  opt_contentType : option string
}.

Inductive FormValue :=
| FieldText (value : string)
| FieldFile (absoluteFilePath : string).   (* fs.createReadStream(path) *)

Record FormField := mkFormField {
  ff_name : string;
  ff_value : FormValue;
  ff_options : FormOptions
}.

(** A [FormData] object is the sequence of the fields appended to it. *)
Definition FormData := list FormField.

(** What is handed to the HTTP library as [body]. *)
Inductive Payload :=
| PayloadValue (v : JsValue)        (* the body as it is; undefined: none *)
| PayloadStringified (v : JsValue)  (* the text JSON.stringify(v) *)
| PayloadForm (form : FormData).

Record Agent := mkAgent { rejectUnauthorized : bool }.

Record FetchCall := mkFetchCall {
  fc_url : string;
  fc_method : string;
  fc_headers : gmap string string;
  fc_body : Payload;
  fc_agent : Agent;
  fc_timeout : Z
}.

(** ** The world around the executor

    Libraries, the JavaScript built-ins that are not modelled by a definition
    of this file, the file system and the network. *)
Record World := mkWorld {
  (** [VariableManager.replaceVariables] *)
  replaceVariables : string -> string;
  (** [JsonUtils.parseJson] *)
  parseJson : string -> JsValue;
  (** whether [new URL(url)] returns rather than throws *)
  url_parses : string -> bool;
  (** [fetch(url, options)]: the outcome of a call, given the calls made so
      far *)
  net : list FetchCall -> FetchCall -> result FetchResponse;
  (** [fs.existsSync] *)
  existsSync : string -> bool;
  (** [path.resolve(baseDir, filePath)] *)
  path_resolve : string -> string -> string;
  (** [formData.getHeaders()] *)
  getHeaders : FormData -> gmap string string;
  (** [formData.append(name, null, options)]: what the form-data library
      does with a null value *)
  append_null : FormData -> string -> FormOptions -> result FormData;
  (** [new RegExp(source)] and [text.split(regexp)], for a [source] that
      has regular expression operators in it: the error of the constructor,
      if it throws, and the pieces *)
  regexp_error : string -> option Thrown;
  regexp_split : string -> string -> list string
}.

(** ** Building the multipart body *)

Definition crlf : string :=
  String (ascii_of_N 13) (String (ascii_of_N 10) EmptyString).

(** [m[i]] for the result [m] of a successful match, [i >= 1]. *)
Definition group (i : nat) (caps : list string) : string :=
  nth (Nat.pred i) caps EmptyString.

(** A string value that is defined and truthy. *)
Definition truthy_value (v : option string) : option string :=
  match v with
  | Some s => if Js.truthy s then Some s else None
  | None => None
  end.

(** The body of [lines.forEach] in [buildFormData]: the state is the
    [headers] object and [content].  Only the keys [content-disposition] and
    [content-type] of [headers] are read back, and the prototype of the
    object has neither. *)
Definition part_line (st : gmap string string * option string) (line : string)
  : gmap string string * option string :=
  if Nat.eqb (Js.length (Js.trim line)) 0 then st
  else
    match Re.search Re.header_re line with
    | Some headerMatch =>
        (<[Js.toLowerCase (group 1 headerMatch) := group 2 headerMatch]> st.1,
         st.2)
    | None =>
        (st.1,
         match st.2 with
         | None => Some line
         | Some content => Some (content +:+ crlf +:+ line)
         end)
    end.

Definition part_fields (part : string) : gmap string string * option string :=
  fold_left part_line (Js.split crlf part) (∅, None).

(** [name] and [filename] of a Content-Disposition value. *)
Definition disposition_param (re : list Re.item)
    (contentDisposition : option string) : option string :=
  match truthy_value contentDisposition with
  | Some cd =>
      match Re.search re cd with
      | Some m => Some (group 1 m)
      | None => None
      end
  | None => None
  end.

(** [const [, filePath] = content.split(" ")] *)
Definition second_token (content : string) : option string :=
  Js.split " " content !! 1%nat.

Definition buildFormData (w : World) (baseDir : string)
    (formData : FormData) (part : string) : result FormData :=
  let '(headers, content) := part_fields part in
  let contentDisposition := headers !! "content-disposition" in
  let name := disposition_param Re.name_re contentDisposition in
  let filename := disposition_param Re.filename_re contentDisposition in
  let contentType := truthy_value (headers !! "content-type") in
  match truthy_value name with
  | None => Throw (newError "Name not found in Content-Disposition header.")
  | Some name =>
      let options := {| opt_filename := truthy_value filename;
                        opt_contentType := contentType |} in
      match truthy_value filename, truthy_value content with
      | Some _, Some content =>
          match truthy_value (second_token content) with
          | Some filePath =>
              let absoluteFilePath := path_resolve w baseDir filePath in
              if negb (existsSync w absoluteFilePath)
              then Throw (newError (filePath +:+ " is not found."))
              else Return (formData ++
                             [mkFormField name (FieldFile absoluteFilePath)
                                          options])
          | None => Throw (newError "Invalid file path format.")
          end
      | _, _ =>
          match content with
          | Some value =>
              Return (formData ++ [mkFormField name (FieldText value) options])
          | None => append_null w formData name options
          end
      end
  end.

(** What [buildFormData] does with a file part, by the second token of its
    content. *)
Definition file_outcome (w : World) (baseDir : string) (formData : FormData)
    (name : string) (options : FormOptions) (token : option string)
  : result FormData :=
  match truthy_value token with
  | Some filePath =>
      if existsSync w (path_resolve w baseDir filePath)
      then Return (formData ++
                     [mkFormField name
                        (FieldFile (path_resolve w baseDir filePath)) options])
      else Throw (newError (filePath +:+ " is not found."))
  | None => Throw (newError "Invalid file path format.")
  end.

(** Characters with a meaning in the source of a regular expression. *)
Definition is_regexp_operator (c : ascii) : bool :=
  existsb (Ascii.eqb c)
    (list_ascii_of_string "\^$.|?*+()[]{}").

Fixpoint literal_source (s : string) : bool :=
  match s with
  | EmptyString => true
  | String c s' => negb (is_regexp_operator c) && literal_source s'
  end.

(** [text.split(new RegExp(source))]: a source without operators matches
    its own text only. *)
Definition split_regexp (w : World) (source text : string)
  : result (list string) :=
  if literal_source source then Return (Js.split source text)
  else match regexp_error w source with
       | Some t => Throw t
       | None => Return (regexp_split w source text)
       end.

(** [body.split(new RegExp(source))] for the body of a request, which is
    only cast to a string. *)
Definition split_body (w : World) (source : string) (body : JsValue)
  : result (list string) :=
  match body with
  | JsString text => split_regexp w source text
  | JsUndefined =>
      Throw (ThrownError TypeError
               "Cannot read properties of undefined (reading 'split')"
               None None)
  | JsNull =>
      Throw (ThrownError TypeError
               "Cannot read properties of null (reading 'split')"
               None None)
  | _ =>
      rbind (split_regexp w source EmptyString) (fun _ =>
      Throw (ThrownError TypeError "body.split is not a function" None None))
  end.

(** [headers["Content-Type"] || headers["content-type"]] *)
Definition contentTypeOf (headers : gmap string string) : option string :=
  Js.or_else (headers !! "Content-Type") (headers !! "content-type").

(** The body of [parts.forEach] in [parseFormData]. *)
Definition add_part (w : World) (baseDir : string)
    (acc : result FormData) (part : string) : result FormData :=
  rbind acc (fun formData =>
    if Nat.eqb (Js.length (Js.trim part)) 0 || String.eqb part "--"
    then Return formData
    else buildFormData w baseDir formData part).

Definition parseFormData (w : World) (baseDir : string)
    (headers : gmap string string) (body : JsValue) : result FormData :=
  match truthy_value (contentTypeOf headers) with
  | None => Throw (newError "Content-Type header not found.")
  | Some contentType =>
      match Re.search Re.boundary_re contentType with
      | None => Throw (newError "Boundary not found in Content-Type header.")
      | Some boundaryMatch =>
          let boundary := Js.trim (group 1 boundaryMatch) in
          rbind (split_body w ("--" +:+ boundary) body) (fun parts =>
          fold_left (add_part w baseDir) parts (Return []))
      end
  end.

(** ** Asynchronous code: the calls made to the network are recorded

    An [async] computation is run sequentially: it takes the calls made so
    far and gives its outcome (a value or a thrown value, which stands for a
    rejected promise) with the calls made by its end. *)

Definition M (A : Type) : Type := list FetchCall -> result A * list FetchCall.

Definition ret {A} (a : A) : M A := fun calls => (Return a, calls).

Definition throw {A} (t : Thrown) : M A := fun calls => (Throw t, calls).

Definition bind {A B} (m : M A) (k : A -> M B) : M B :=
  fun calls =>
    match m calls with
    | (Return a, calls') => k a calls'
    | (Throw t, calls') => (Throw t, calls')
    end.

(** [try { m } catch (error) { handler }] *)
Definition try_catch {A} (m : M A) (handler : Thrown -> M A) : M A :=
  fun calls =>
    match m calls with
    | (Return a, calls') => (Return a, calls')
    | (Throw error, calls') => handler error calls'
    end.

Definition lift {A} (r : result A) : M A := fun calls => (r, calls).

Notation "'await' x ':=' m 'in' k" := (bind m (fun x => k))
  (at level 10, x name, m at level 100, k at level 200, only parsing).
Notation "'run' m 'in' k" := (bind m (fun _ => k))
  (at level 10, m at level 100, k at level 200, only parsing).

(** [await fetch(url, options)] *)
Definition fetch (w : World) (call : FetchCall) : M FetchResponse :=
  fun calls => (net w calls call, calls ++ [call]).

(** [await response.text()] *)
Definition text (response : FetchResponse) : M string :=
  match fr_text response with
  | TextOk s => ret s
  | TextFails t => throw t
  end.

(** ** RequestExecutor *)

Definition serverCheckTimeout : Z := 5000.
Definition requestTimeout : Z := 10000.
Definition agent : Agent := {| rejectUnauthorized := false |}.

Definition applyVariables (w : World) (request : HttpRequest) : HttpRequest :=
  {| rq_name := rq_name request;
     rq_method := rq_method request;
     rq_url := replaceVariables w (rq_url request);
     rq_headers := replaceVariables w <$> rq_headers request;
     rq_body := match rq_body request with
                | JsString s => JsString (replaceVariables w s)
                | other => other
                end |}.

Definition validateUrl (w : World) (url : string) : M unit :=
  if url_parses w url then ret tt
  else throw (newRequestError ("Invalid URL: " +:+ url)).

(** [error instanceof Error && "type" in error &&
     error.type === "request-timeout"] *)
Definition is_request_timeout (error : Thrown) : bool :=
  match error with
  | ThrownError _ _ (Some type) _ => String.eqb type "request-timeout"
  | _ => false
  end.

Definition probe (url : string) : FetchCall :=
  {| fc_url := url; fc_method := "HEAD"; fc_headers := ∅;
     fc_body := PayloadValue JsUndefined; fc_agent := agent;
     fc_timeout := serverCheckTimeout |}.

Definition server_not_responding (url : string) : string :=
  "Server is not responding at " +:+ url +:+
  ". Please check if the server is running.".

Definition checkServerStatus (w : World) (url : string) : M unit :=
  try_catch (run fetch w (probe url) in ret tt)
    (fun error =>
       if is_request_timeout error
       then throw (newRequestError (server_not_responding url))
       else ret tt).

(** [JSON.stringify(body)], which is [undefined] for [undefined]. *)
Definition stringify (body : JsValue) : Payload :=
  match body with
  | JsUndefined => PayloadValue JsUndefined
  | _ => PayloadStringified body
  end.

(** The part of [sendRequest] before the call: the headers and the body
    that are sent. *)
Definition requestConfig (w : World) (baseDir : string) (request : HttpRequest)
  : result (gmap string string * Payload) :=
  let headers := rq_headers request in
  let body := rq_body request in
  let data := PayloadValue body in
  match truthy_value (contentTypeOf headers) with
  | Some contentType =>
      if Js.includes "application/json" contentType then
        Return (headers,
                if is_string body then PayloadValue body
                else stringify body)
      else if Js.includes "multipart/form-data" contentType then
        rbind (parseFormData w baseDir headers body) (fun formData =>
        Return (getHeaders w formData
                  ∪ delete "content-type" (delete "Content-Type" headers),
                PayloadForm formData))
      else Return (headers, data)
  | None => Return (headers, data)
  end.

(** The options of the call of [sendRequest]. *)
Definition dispatch (request : HttpRequest)
    (config : gmap string string * Payload) : FetchCall :=
  {| fc_url := rq_url request; fc_method := rq_method request;
     fc_headers := config.1; fc_body := config.2;
     fc_agent := agent; fc_timeout := requestTimeout |}.

Definition sendRequest (w : World) (baseDir : string) (request : HttpRequest)
  : M FetchResponse :=
  await config := lift (requestConfig w baseDir request) in
  fetch w (dispatch request config).

Definition timed_out (url : string) : string :=
  "Request to " +:+ url +:+
  " timed out. Please check your network connection and server status.".

Definition failed (url message : string) : string :=
  "Request to " +:+ url +:+ " failed: " +:+ message.

(** [error instanceof Error ? error.message : String(error)] *)
Definition error_text (error : Thrown) : string :=
  match error with
  | ThrownError _ message _ _ => message
  | ThrownValue shown => shown
  end.

Definition handleRequestError (error : Thrown) (request : HttpRequest)
  : M HttpResponse :=
  if is_request_timeout error then
    throw (newRequestError (timed_out (rq_url request)))
  else
  match error with
  | ThrownError _ _ _ (Some response) =>
      await responseData := text response in
      ret {| status := fr_status response;
             headers := fromEntries (fr_entries response);
             data := JsString responseData |}
  | _ => throw (newRequestError (failed (rq_url request) (error_text error)))
  end.

(** Response assembly: the end of the [try] block of [execute]. *)
Definition assemble (w : World) (response : FetchResponse) : M HttpResponse :=
  await responseData := text response in
  let parsedData := js_or (parseJson w responseData) (JsString responseData) in
  ret {| status := fr_status response;
         headers := fromEntries (fr_entries response);
         data := parsedData |}.

Definition execute (w : World) (baseDir : string) (request : HttpRequest)
  : M HttpResponse :=
  let processedRequest := applyVariables w request in
  try_catch
    (run validateUrl w (rq_url processedRequest) in
     run checkServerStatus w (rq_url processedRequest) in
     await response := sendRequest w baseDir processedRequest in
     assemble w response)
    (fun error => handleRequestError error processedRequest).

(** The main phase of [execute]: what follows the probe inside the [try]
    block, under the [catch] of [execute]. *)
Definition main_phase (w : World) (baseDir : string) (p : HttpRequest)
  : M HttpResponse :=
  try_catch (await response := sendRequest w baseDir p in assemble w response)
            (fun error => handleRequestError error p).

(** Whether the probe fails with an [Error] typed as a request timeout. *)
Definition probe_times_out (w : World) (calls : list FetchCall) (url : string)
  : bool :=
  match net w calls (probe url) with
  | Throw e => is_request_timeout e
  | Return _ => false
  end.

(** [error.response], for an [Error] that has the property. *)
Definition attached_response (error : Thrown) : option FetchResponse :=
  match error with
  | ThrownError _ _ _ response => response
  | ThrownValue _ => None
  end.

(** ** JSON texts

    [JSON.parse] of ECMAScript on the strings of the model.  An escape
    [\uXXXX] above 255 names a code unit that the strings of the model do not
    have; texts with such an escape are outside the model and are refused.
    A member that repeats a key replaces the value of the earlier one. *)

Module Json.

Definition is_ws (c : ascii) : bool :=
  let n := Js.code c in
  (n =? 32)%N || (n =? 9)%N || (n =? 10)%N || (n =? 13)%N.

Fixpoint skip_ws (s : string) : string :=
  match s with
  | String c s' => if is_ws c then skip_ws s' else s
  | EmptyString => EmptyString
  end.

Definition digit (c : ascii) : option Z :=
  let n := Js.code c in
  if ((48 <=? n)%N && (n <=? 57)%N) then Some (Z.of_N n - 48) else None.

Definition hex_digit (c : ascii) : option Z :=
  let n := Js.code c in
  if ((48 <=? n)%N && (n <=? 57)%N) then Some (Z.of_N n - 48)
  else if ((65 <=? n)%N && (n <=? 70)%N) then Some (Z.of_N n - 55)
  else if ((97 <=? n)%N && (n <=? 102)%N) then Some (Z.of_N n - 87)
  else None.

(** A maximal run of digits: its value after [acc], how many there are, and
    the rest of the text. *)
Fixpoint digits (acc : Z) (count : nat) (s : string) : Z * nat * string :=
  match s with
  | String c s' =>
      match digit c with
      | Some d => digits (10 * acc + d) (S count) s'
      | None => (acc, count, s)
      end
  | EmptyString => (acc, count, s)
  end.

Fixpoint normalize (fuel : nat) (m e : Z) : Z * Z :=
  match fuel with
  | O => (m, e)
  | S fuel' =>
      if m =? 0 then (0, 0)
      else if m mod 10 =? 0 then normalize fuel' (m / 10) (e + 1)
      else (m, e)
  end.

(** Whether the decimal [m * 10 ^ e], for [m > 0], rounds to the double 0:
    it is at most [2 ^ -1075], half of the least positive double (at the
    half the tie goes to the even neighbour, which is 0). *)
Definition underflows (m e : Z) : bool :=
  (e <? 0) && (m * 2 ^ 1075 <=? 10 ^ (- e)).

(** number = [-] int [frac] [exp] *)
Definition parse_number (s : string) : option (JsValue * string) :=
  let '(negative, s1) :=
    match s with
    | String "-" s' => (true, s')
    | _ => (false, s)
    end in
  let '(int, n_int, s2) := digits 0 O s1 in
  let leading_zero :=
    match s1 with String "0" _ => true | _ => false end in
  if Nat.eqb n_int 0 || (leading_zero && negb (Nat.eqb n_int 1)) then None
  else
    let frac :=
      match s2 with
      | String "." s' =>
          let '(m, n, s3) := digits int O s' in
          if Nat.eqb n 0 then None else Some (m, n, s3)
      | _ => Some (int, O, s2)
      end in
    match frac with
    | None => None
    | Some (m, n_frac, s3) =>
        let exp :=
          match s3 with
          | String c s' =>
              if Ascii.eqb c "e" || Ascii.eqb c "E" then
                let '(minus, s4) :=
                  match s' with
                  | String "-" t => (true, t)
                  | String "+" t => (false, t)
                  | _ => (false, s')
                  end in
                let '(e, n, s5) := digits 0 O s4 in
                if Nat.eqb n 0 then None
                else Some (if minus then - e else e, s5)
              else Some (0, s3)
          | EmptyString => Some (0, s3)
          end in
        match exp with
        | None => None
        | Some (e, rest) =>
            let '(m', e') :=
              normalize (n_int + n_frac) m (e - Z.of_nat n_frac) in
            if underflows m' e' then Some (JsNumber 0 0, rest)
            else Some (JsNumber (if negative then - m' else m') e', rest)
        end
    end.

Definition escape (c : ascii) : option ascii :=
  let n := Js.code c in
  if (n =? 34)%N || (n =? 92)%N || (n =? 47)%N then Some c
  else if Ascii.eqb c "b" then Some (ascii_of_N 8)
  else if Ascii.eqb c "f" then Some (ascii_of_N 12)
  else if Ascii.eqb c "n" then Some (ascii_of_N 10)
  else if Ascii.eqb c "r" then Some (ascii_of_N 13)
  else if Ascii.eqb c "t" then Some (ascii_of_N 9)
  else None.

Definition unicode_escape (s : string) : option (ascii * string) :=
  match s with
  | String a (String b (String c (String d rest))) =>
      match hex_digit a, hex_digit b, hex_digit c, hex_digit d with
      | Some x3, Some x2, Some x1, Some x0 =>
          let n := ((x3 * 16 + x2) * 16 + x1) * 16 + x0 in
          if n <? 256 then Some (ascii_of_N (Z.to_N n), rest) else None
      | _, _, _, _ => None
      end
  | _ => None
  end.

(** The characters of a string, after its opening quote. *)
Fixpoint parse_chars (fuel : nat) (s : string) : option (string * string) :=
  match fuel with
  | O => None
  | S fuel' =>
      match s with
      | EmptyString => None
      | String c s' =>
          let n := Js.code c in
          if (n =? 34)%N then Some (EmptyString, s')
          else if (n <? 32)%N then None
          else if (n =? 92)%N then
            match s' with
            | String e s'' =>
                if Ascii.eqb e "u" then
                  match unicode_escape s'' with
                  | Some (u, rest) =>
                      match parse_chars fuel' rest with
                      | Some (str, rest') => Some (String u str, rest')
                      | None => None
                      end
                  | None => None
                  end
                else
                  match escape e with
                  | Some u =>
                      match parse_chars fuel' s'' with
                      | Some (str, rest') => Some (String u str, rest')
                      | None => None
                      end
                  | None => None
                  end
            | EmptyString => None
            end
          else
            match parse_chars fuel' s' with
            | Some (str, rest') => Some (String c str, rest')
            | None => None
            end
      end
  end.

Fixpoint set_member (k : string) (v : JsValue)
    (members : list (string * JsValue)) : list (string * JsValue) :=
  match members with
  | [] => [(k, v)]
  | (k', v') :: rest =>
      if String.eqb k k' then (k, v) :: rest
      else (k', v') :: set_member k v rest
  end.

Definition is_quote (c : ascii) : bool := (Js.code c =? 34)%N.

Fixpoint parse_value (fuel : nat) (s : string) : option (JsValue * string) :=
  match fuel with
  | O => None
  | S fuel' =>
      match skip_ws s with
      | EmptyString => None
      | String c rest as t =>
          if Ascii.eqb c "n" then
            option_map (pair JsNull) (Js.strip_prefix "null" t)
          else if Ascii.eqb c "t" then
            option_map (pair (JsBool true)) (Js.strip_prefix "true" t)
          else if Ascii.eqb c "f" then
            option_map (pair (JsBool false)) (Js.strip_prefix "false" t)
          else if is_quote c then
            match parse_chars (S (Js.length rest)) rest with
            | Some (str, rest') => Some (JsString str, rest')
            | None => None
            end
          else if Ascii.eqb c "[" then
            match skip_ws rest with
            | String "]" rest' => Some (JsArray [], rest')
            | _ =>
                match parse_items fuel' rest with
                | Some (items, rest') => Some (JsArray items, rest')
                | None => None
                end
            end
          else if Ascii.eqb c "{" then
            match skip_ws rest with
            | String "}" rest' => Some (JsObject [], rest')
            | _ =>
                match parse_members fuel' [] rest with
                | Some (members, rest') => Some (JsObject members, rest')
                | None => None
                end
            end
          else parse_number t
      end
  end
with parse_items (fuel : nat) (s : string)
  : option (list JsValue * string) :=
  match fuel with
  | O => None
  | S fuel' =>
      match parse_value fuel' s with
      | Some (v, rest) =>
          match skip_ws rest with
          | String "]" rest' => Some ([v], rest')
          | String "," rest' =>
              match parse_items fuel' rest' with
              | Some (vs, rest'') => Some (v :: vs, rest'')
              | None => None
              end
          | _ => None
          end
      | None => None
      end
  end
with parse_members (fuel : nat) (acc : list (string * JsValue)) (s : string)
  : option (list (string * JsValue) * string) :=
  match fuel with
  | O => None
  | S fuel' =>
      match skip_ws s with
      | String q rest =>
          if is_quote q then
            match parse_chars (S (Js.length rest)) rest with
            | Some (key, rest1) =>
                match skip_ws rest1 with
                | String ":" rest2 =>
                    match parse_value fuel' rest2 with
                    | Some (v, rest3) =>
                        let acc' := set_member key v acc in
                        match skip_ws rest3 with
                        | String "}" rest4 => Some (acc', rest4)
                        | String "," rest4 => parse_members fuel' acc' rest4
                        | _ => None
                        end
                    | None => None
                    end
                | _ => None
                end
            | None => None
            end
          else None
      | EmptyString => None
      end
  end.

(** [JSON.parse(text)]: [None] stands for the SyntaxError. *)
Definition parse (text : string) : option JsValue :=
  match parse_value (2 * Js.length text + 2) text with
  | Some (v, rest) =>
      match skip_ws rest with
      | EmptyString => Some v
      | _ => None
      end
  | None => None
  end.

End Json.

(** ** Parts of the repository that are not among the sources *)

(** Modelled from the spec: [JsonUtils.parseJson] (utils/jsonUtils is not
    among the sources).  The spec has the executor attempt JSON parsing of
    the body text and retain the raw text on parse failure: the helper gives
    the parsed value, and [undefined] for a text that does not parse. *)
Definition parseJson_model (text : string) : JsValue :=
  match Json.parse text with
  | Some v => v
  | None => JsUndefined
  end.

(** The name of a placeholder: the text before the first closing brace. *)
Fixpoint placeholder_name (s : string) : option string :=
  match s with
  | EmptyString => None
  | String c s' =>
      if Ascii.eqb c "}" then Some EmptyString
      else option_map (String c) (placeholder_name s')
  end.

Fixpoint replace_go (variables : gmap string string) (skip : nat) (s : string)
  : string :=
  match s with
  | EmptyString => EmptyString
  | String c s' =>
      match skip with
      | S k => replace_go variables k s'
      | O =>
          match Js.strip_prefix "${" s ≫= placeholder_name with
          | Some name =>
              match variables !! name with
              | Some value =>
                  value +:+ replace_go variables (Js.length name + 2) s'
              | None => String c (replace_go variables O s')
              end
          | None => String c (replace_go variables O s')
          end
      end
  end.

(** Modelled from the spec: [VariableManager.replaceVariables]
    (http-test-core/VariableManager is not among the sources).  It replaces
    every [${name}] occurrence with the string value bound to [name]; a
    placeholder whose name is not bound is left as it is. *)
Definition replaceVariables_model (variables : gmap string string)
    (text : string) : string :=
  replace_go variables O text.

(** Whether a character occurs in a text. *)
Fixpoint occurs (c : ascii) (s : string) : bool :=
  match s with
  | EmptyString => false
  | String d s' => Ascii.eqb c d || occurs c s'
  end.

(** Values that bring no placeholder with them: no value has a [$], and
    every value starts with a character that the part [{name}] of the
    placeholder of no bound name has. *)
Definition plain_values (variables : gmap string string) : Prop :=
  forall name value, variables !! name = Some value ->
    occurs "$" value = false
    /\ exists c rest,
         value = String c rest
         /\ forall name', is_Some (variables !! name') ->
              occurs c (String "{" (name' +:+ "}")) = false.

(** Substitution through a structured body, for the reading in which the
    body is substituted whatever its shape. *)
Fixpoint substitute_value (f : string -> string) (v : JsValue) : JsValue :=
  match v with
  | JsString s => JsString (f s)
  | JsArray items => JsArray (map (substitute_value f) items)
  | JsObject members =>
      JsObject (map (fun kv => match kv with
                               | (k, x) => (k, substitute_value f x)
                               end) members)
  | other => other
  end.

(** [applyVariables] as the specification words it: substitution across the
    url, every header value and the body. *)
Definition applyVariables_spec (w : World) (request : HttpRequest)
  : HttpRequest :=
  {| rq_name := rq_name request;
     rq_method := rq_method request;
     rq_url := replaceVariables w (rq_url request);
     rq_headers := replaceVariables w <$> rq_headers request;
     rq_body := substitute_value (replaceVariables w) (rq_body request) |}.

(** ** Example worlds *)

Module Example.

(** [path.resolve] of POSIX for an absolute base directory. *)
Definition push_segment (stack : list string) (segment : string)
  : list string :=
  if String.eqb segment EmptyString || String.eqb segment "." then stack
  else if String.eqb segment ".." then removelast stack
  else stack ++ [segment].

Definition posix_resolve (baseDir filePath : string) : string :=
  let full := if Js.starts_with "/" filePath then filePath
              else baseDir +:+ "/" +:+ filePath in
  let segments := fold_left push_segment (Js.split "/" full) [] in
  match segments with
  | [] => "/"
  | _ => fold_left (fun acc seg => acc +:+ "/" +:+ seg) segments EmptyString
  end.

(** A stand-in for the URL constructor: it accepts the texts without white
    space that start with [http://] or [https://] followed by a letter or a
    digit, the only URLs the examples send, and refuses the others. *)
Definition is_alnum (c : ascii) : bool :=
  let n := Js.code c in
  ((48 <=? n)%N && (n <=? 57)%N) || ((65 <=? n)%N && (n <=? 90)%N)
  || ((97 <=? n)%N && (n <=? 122)%N).

Fixpoint has_space (s : string) : bool :=
  match s with
  | EmptyString => false
  | String c s' => Js.is_space c || has_space s'
  end.

Definition url_ok (url : string) : bool :=
  negb (has_space url) &&
  match Js.or_else (Js.strip_prefix "http://" url)
                   (Js.strip_prefix "https://" url) with
  | Some (String c _) => is_alnum c
  | _ => false
  end.

(** The headers of the form-data library for a form: the content type with
    a boundary of its own. *)
Definition form_headers (form : FormData) : gmap string string :=
  {[ "content-type" :=
       "multipart/form-data; boundary=--------------------------000000000000000000000000" ]}.

(** A world: the variables of the variable manager, the files that exist and
    the answers of the network.  A null value is appended as the text
    [null], as by the form-data library of version 4.0.6.  The regular
    expression engine is a stand-in that is stricter than the real one: it
    refuses every source that has an operator, also those that are valid
    patterns; the examples use no boundary with an operator, so that none
    of them depends on it. *)
Definition world (variables : gmap string string) (files : list string)
    (network : list FetchCall -> FetchCall -> result FetchResponse) : World :=
  {| replaceVariables := replaceVariables_model variables;
     parseJson := parseJson_model;
     url_parses := url_ok;
     net := network;
     existsSync := fun path => bool_decide (path ∈ files);
     path_resolve := posix_resolve;
     getHeaders := form_headers;
     append_null := fun formData name options =>
       Return (formData ++ [mkFormField name (FieldText "null") options]);
     regexp_error := fun source =>
       Some (ThrownError LibraryError
               ("Invalid regular expression: /" +:+ source +:+ "/") None None);
     regexp_split := fun _ text => [text] |}.

(** A server that answers every call with status 200 and the given body. *)
Definition answers (body : string)
  : list FetchCall -> FetchCall -> result FetchResponse :=
  fun _ _ =>
    Return (mkFetchResponse 200 [("content-type", "application/json")]
                            (TextOk body)).

Definition get (url : string) : HttpRequest :=
  {| rq_name := "ping"; rq_method := "GET"; rq_url := url;
     rq_headers := ∅; rq_body := JsUndefined |}.

Definition ping : HttpRequest := get "https://example.test/ping".

(** A world with another JSON helper. *)
Definition with_parseJson (helper : string -> JsValue) (w : World) : World :=
  {| replaceVariables := replaceVariables w;
     parseJson := helper;
     url_parses := url_parses w;
     net := net w;
     existsSync := existsSync w;
     path_resolve := path_resolve w;
     getHeaders := getHeaders w;
     append_null := append_null w;
     regexp_error := regexp_error w;
     regexp_split := regexp_split w |}.

(** [execute] for a GET of a server that answers with the given body, with
    the JSON helper of the model and with any other. *)
Definition served (body : string) : result HttpResponse * list FetchCall :=
  execute (world ∅ [] (answers body)) "/work" ping [].

Definition served_with (helper : string -> JsValue) (body : string)
  : result HttpResponse * list FetchCall :=
  execute (with_parseJson helper (world ∅ [] (answers body))) "/work" ping [].

(** The Response for the answer of [answers] with the given data. *)
Definition ok (v : JsValue) : HttpResponse :=
  {| status := 200;
     headers := fromEntries [("content-type", "application/json")];
     data := v |}.

(** A request with placeholders in its url, in a header and inside its
    structured body, and a world that binds them. *)
Definition item_world : World :=
  world {[ "host" := "example.test"; "id" := "7" ]} [] (answers "{}").

Definition post_item : HttpRequest :=
  {| rq_name := "create"; rq_method := "POST";
     rq_url := "https://${host}/items";
     rq_headers := {[ "Content-Type" := "application/json";
                      "X-Item" := "${id}" ]};
     rq_body := JsObject [("id", JsString "${id}")] |}.

(** A multipart body as it is written in a script: a text field and a file
    field whose content names the file after [<]. *)
Definition line (s : string) : string := s +:+ crlf.

Definition disposition (params : string) : string :=
  "Content-Disposition: form-data; " +:+ params.

Definition quoted (key value : string) : string :=
  key +:+ "=" +:+ Re.dquote +:+ value +:+ Re.dquote.

Definition text_part : string :=
  line EmptyString
  +:+ line (disposition (quoted "name" "title"))
  +:+ line EmptyString
  +:+ line "hello".

Definition file_part (content : string) : string :=
  line EmptyString
  +:+ line (disposition (quoted "name" "upload" +:+ "; "
                         +:+ quoted "filename" "a.txt"))
  +:+ line "Content-Type: text/plain"
  +:+ line EmptyString
  +:+ line content.

Definition form_body (content : string) : string :=
  "--X" +:+ text_part +:+ "--X" +:+ file_part content +:+ "--X--".

Definition upload (key : string) (content : string) : HttpRequest :=
  {| rq_name := "upload"; rq_method := "POST";
     rq_url := "https://example.test/upload";
     rq_headers := {[ key := "multipart/form-data; boundary=X" ]};
     rq_body := JsString (form_body content) |}.

(** An upload whose body has a line break after the closing delimiter, and
    one whose content type has no boundary. *)
Definition closed_with_line_break : string :=
  "--X" +:+ text_part +:+ "--X--" +:+ crlf.

Definition upload_with_line_break : HttpRequest :=
  {| rq_name := "upload"; rq_method := "POST";
     rq_url := "https://example.test/upload";
     rq_headers := {[ "Content-Type" := "multipart/form-data; boundary=X" ]};
     rq_body := JsString closed_with_line_break |}.

Definition upload_without_boundary : HttpRequest :=
  {| rq_name := "upload"; rq_method := "POST";
     rq_url := "https://example.test/upload";
     rq_headers := {[ "Content-Type" := "multipart/form-data" ]};
     rq_body := JsUndefined |}.

(** A world in which the files [/work/a.txt] and [/work/my] exist. *)
Definition files_world : World :=
  world ∅ ["/work/a.txt"; "/work/my"] (answers "{}").

(** What is sent for the upload of [< ./a.txt] under a spelling of the
    content type key, and the form with the two fields of the body. *)
Definition sent (key : string) : result (gmap string string * Payload) :=
  requestConfig files_world "/work" (upload key "< ./a.txt").

Definition built_form : FormData :=
  [mkFormField "title" (FieldText "hello") (mkFormOptions None None);
   mkFormField "upload" (FieldFile "/work/a.txt")
               (mkFormOptions (Some "a.txt") (Some "text/plain"))].

(** The error of the HTTP library for a call that gets no response in
    time. *)
Definition timeout_error : Thrown :=
  ThrownError LibraryError "network timeout" (Some "request-timeout") None.

(** A server that answers no call in time. *)
Definition silent : list FetchCall -> FetchCall -> result FetchResponse :=
  fun _ _ => Throw timeout_error.

(** A network on which the probe fails with [probe_error] and every other
    call has the outcome [outcome]. *)
Definition after_probe (probe_error : Thrown) (outcome : result FetchResponse)
  : list FetchCall -> FetchCall -> result FetchResponse :=
  fun _ call =>
    if String.eqb (fc_method call) "HEAD" then Throw probe_error else outcome.

Definition connection_refused : Thrown :=
  ThrownError LibraryError "connect ECONNREFUSED 127.0.0.1:443"
              (Some "system") None.

(** An error that carries the response of the server, here a 404 with a
    JSON body. *)
Definition not_found_response : FetchResponse :=
  mkFetchResponse 404 [("content-type", "application/json")] (TextOk "{ }").

Definition error_with_response : Thrown :=
  ThrownError LibraryError "Request failed with status code 404" None
    (Some not_found_response).

(** Worlds without variables and files: no answer in time; an answer to every
    call; a probe that is refused and a dispatch that is refused, or that
    fails with the response of the server attached. *)
Definition silent_world : World := world ∅ [] silent.

Definition plain_world : World := world ∅ [] (answers "{}").


Definition not_found_world : World :=
  world ∅ [] (after_probe connection_refused (Throw error_with_response)).

(** A response whose body was read before: reading it again fails.  The
    error that carries it, the worlds in which the dispatch fails with that
    error and in which the dispatch is answered by that response, and a
    world in which the dispatch times out. *)
Definition body_used : Thrown :=
  ThrownError TypeError "body used already for: https://example.test/ping"
              None None.

Definition consumed_response : FetchResponse :=
  mkFetchResponse 500 [("content-type", "text/plain")] (TextFails body_used).

Definition error_with_consumed_response : Thrown :=
  ThrownError LibraryError "Request failed with status code 500" None
    (Some consumed_response).

Definition consumed_world : World :=
  world ∅ [] (after_probe connection_refused
                          (Throw error_with_consumed_response)).

Definition unreadable_world : World :=
  world ∅ [] (after_probe connection_refused (Return consumed_response)).


End Example.


(** ** Shapes of the lines of a part *)

(** No character that [.] refuses. *)
Fixpoint no_line_terminator (s : string) : bool :=
  match s with
  | EmptyString => true
  | String c s' => negb (Js.is_line_terminator c) && no_line_terminator s'
  end.

Fixpoint no_colon (s : string) : bool :=
  match s with
  | EmptyString => true
  | String c s' => negb (Ascii.eqb c ":") && no_colon s'
  end.

(** A key of a sub-header as it is written: not empty, on one line, without
    a colon. *)
Definition header_key (k : string) : bool :=
  Js.truthy k && no_line_terminator k && no_colon k.

(** A value of a sub-header: not empty, on one line. *)
Definition header_value (v : string) : bool :=
  Js.truthy v && no_line_terminator v.

(** A line that [lines.forEach] of [buildFormData] takes as content: not
    blank and without the shape of a sub-header. *)
Definition content_line (line : string) : bool :=
  negb (Js.all_space line)
  && match Re.search Re.header_re line with
     | None => true
     | Some _ => false
     end.

(** A piece that [parts.forEach] of [parseFormData] skips. *)
Definition skipped (piece : string) : bool :=
  Nat.eqb (Js.length (Js.trim piece)) 0 || String.eqb piece "--".

(** ** The logger (utils/logger)

    The logger keeps two variables, [verbose] and [outputChannel].  An output
    channel of the editor is known by a number, and [shown] has the lines
    that were appended to each channel.  A message is given by its rendering
    as a string, as are the optional parameters.  The marks are the texts of
    the source, as the bytes of its encoding; they are only put before other
    texts. *)

Module Logger.

(** The levels that the logger distinguishes, and any other member of the
    enumeration of [../types]. *)
Inductive LogLevel :=
| VERBOSE
| INFO
| WARNING
| ERROR
| PLAIN
| OTHER (member : string).

Record State := mkState {
  verbose : bool;
  outputChannel : option nat;
  shown : gmap nat (list string)
}.

(** The variables as they are when the module is loaded. *)
Definition start : State :=
  {| verbose := false; outputChannel := None; shown := ∅ |}.

Definition initLogger (channel : nat) (st : State) : State :=
  {| verbose := verbose st; outputChannel := Some channel;
     shown := shown st |}.

Definition setVerbose (v : bool) (st : State) : State :=
  {| verbose := v; outputChannel := outputChannel st; shown := shown st |}.

(** [outputChannel.appendLine(line)] *)
Definition appendLine (channel : nat) (line : string) (st : State) : State :=
  {| verbose := verbose st; outputChannel := outputChannel st;
     shown := <[channel := (shown st !!! channel) ++ [line]]> (shown st) |}.

Definition warning_mark : string := "⚠️".
Definition error_mark : string := "❌".
Definition passed_mark : string := "✅".
Definition summary_mark : string := "📊".

Definition lf : string := String (ascii_of_N 10) EmptyString.

(** [s.repeat(n)] *)
Fixpoint repeat_string (s : string) (n : nat) : string :=
  match n with
  | O => EmptyString
  | S n' => s +:+ repeat_string s n'
  end.

Section Levels.

(** [LogLevel[level]]: the name of a member of the enumeration. *)
Variable level_name : LogLevel -> string.

Definition log (message : string) (level : LogLevel)
    (optionalParams : list string) (st : State) : State :=
  match outputChannel st with
  | None => st
  | Some channel =>
      let logMessage := "[" +:+ level_name level +:+ "] " +:+ message in
      let logMessage :=
        match optionalParams with
        | [] => logMessage
        | _ => logMessage +:+ " " +:+ Js.join " " optionalParams
        end in
      match level with
      | VERBOSE =>
          if verbose st then appendLine channel logMessage st else st
      | INFO => appendLine channel logMessage st
      | WARNING => appendLine channel (warning_mark +:+ " " +:+ logMessage) st
      | ERROR => appendLine channel (error_mark +:+ " " +:+ logMessage) st
      | PLAIN => appendLine channel message st
      | OTHER _ => appendLine channel logMessage st
      end
  end.

Definition logVerbose (message : string) (optionalParams : list string)
  : State -> State := log message VERBOSE optionalParams.
Definition logInfo (message : string) (optionalParams : list string)
  : State -> State := log message INFO optionalParams.
Definition logWarning (message : string) (optionalParams : list string)
  : State -> State := log message WARNING optionalParams.
Definition logError (message : string) (optionalParams : list string)
  : State -> State := log message ERROR optionalParams.
Definition logPlain (message : string) (optionalParams : list string)
  : State -> State := log message PLAIN optionalParams.

(** Modelled from the spec: the results and the summary of [../types],
    which is not among the sources.  A result has a name, whether it
    passed, a status code when a response was obtained and a failure
    detail; the detail is an [Error] with its message, or another value with
    its rendering and its truthiness.  A summary has the three counts and
    the results. *)
Inductive Detail :=
| DetailError (message : string)
| DetailValue (shown_as : string) (truthy : bool).

Record TestResult := mkTestResult {
  tr_name : string;
  tr_passed : bool;
  tr_statusCode : option Z;
  tr_error : option Detail
}.

Record TestSummary := mkTestSummary {
  totalTests : Z;
  passedTests : Z;
  failedTests : Z;
  results : list TestResult
}.

(** [result.statusCode ? `(Status: ${result.statusCode})` : ""] *)
Definition status_text (r : TestResult) : string :=
  match tr_statusCode r with
  | Some code =>
      if code =? 0 then EmptyString
      else "(Status: " +:+ pretty code +:+ ")"
  | None => EmptyString
  end.

Definition pass_text (r : TestResult) : string :=
  if tr_passed r then passed_mark +:+ " PASS" else error_mark +:+ " FAIL".

(** [result.error], when it is truthy, as the text that is logged. *)
Definition error_text (r : TestResult) : option string :=
  match tr_error r with
  | Some (DetailError message) => Some message
  | Some (DetailValue shown_as true) => Some shown_as
  | _ => None
  end.

Definition logTestResult (result : TestResult) (st : State) : State :=
  let message :=
    tr_name result +:+ ": " +:+ pass_text result +:+ " " +:+ status_text result
  in
  if tr_passed result then logInfo message [] st
  else
    let st := logWarning message [] st in
    match error_text result with
    | Some text => logError text [] st
    | None => st
    end.

(** The line of the summary for the result at [index]. *)
Definition result_line (index : nat) (result : TestResult) : string :=
  "  " +:+ pretty (index + 1)%nat +:+ ". " +:+ tr_name result +:+ ": "
  +:+ pass_text result +:+ " " +:+ status_text result.

(** [summary.results.forEach((result, index) => ...)] from [index] on. *)
Fixpoint log_results (index : nat) (rs : list TestResult) (st : State)
  : State :=
  match rs with
  | [] => st
  | result :: rest =>
      log_results (S index) rest (logPlain (result_line index result) [] st)
  end.

Definition result_mark (r : TestResult) : string :=
  if tr_passed r then passed_mark else error_mark.

Definition logTestSummary (summary : TestSummary) (st : State) : State :=
  let st := logPlain (lf +:+ repeat_string "=" 50) [] st in
  let st := logPlain (summary_mark +:+ " Test Summary") [] st in
  let st := logPlain (repeat_string "=" 50) [] st in
  let st := logPlain ("Total Tests: " +:+ pretty (totalTests summary)) [] st in
  let st := logPlain ("Passed Tests: " +:+ pretty (passedTests summary)) [] st in
  let st := logPlain ("Failed Tests: " +:+ pretty (failedTests summary)) [] st in
  let statusEmojis := Js.join EmptyString (result_mark <$> results summary) in
  let st := logPlain (lf +:+ statusEmojis) [] st in
  log_results 0 (results summary) st.

End Levels.

(** The names of the members, as a numeric enumeration of TypeScript gives
    them for [LogLevel[level]]. *)
Definition member_name (level : LogLevel) : string :=
  match level with
  | VERBOSE => "VERBOSE"
  | INFO => "INFO"
  | WARNING => "WARNING"
  | ERROR => "ERROR"
  | PLAIN => "PLAIN"
  | OTHER member => member
  end.

(** Examples: a channel that was given to the logger; a summary of two
    results; a failed result with an empty text as its detail. *)
Definition ready : State := initLogger 0 start.

Definition failed_ping : TestResult :=
  mkTestResult "ping" false (Some 500) (Some (DetailError "status is 500")).

Definition two_results : TestSummary :=
  mkTestSummary 2 1 1 [mkTestResult "login" true (Some 200) None; failed_ping].

End Logger.

(** ** The controller of the test run (HttpTestingController)

    The first version of [runHttpTest], which writes the variables of the
    current environment next to the script and starts the command line
    runner in a terminal.  The editor is a host: what the method reads from
    it is a field of [Host], and what it does to it is the sequence of
    actions of the result.  The decorator [trace] is outside the model. *)

Module Controller.

(** [s.endsWith(suffix)] *)
Fixpoint endsWith (suffix s : string) : bool :=
  String.eqb s suffix
  || match s with
     | EmptyString => false
     | String _ s' => endsWith suffix s'
     end.

(** An item of the environment pick list, by the fields that are read. *)
Record Item := mkItem { label : string; name : string }.

Record Host := mkHost {
  (** the file name of the document of [vscode.window.activeTextEditor] *)
  activeEditor : option string;
  (** [SystemSettings.Instance.environmentVariables] *)
  environmentVariables : gmap string (gmap string JsValue);
  (** the outcome of [UserDataManager.getEnvironment()] *)
  storedEnvironment : result (option Item);
  (** the error of [fs.promises.writeFile(path, text, 'utf8')], if it
      fails, for the text [JSON.stringify(object, null, 2)] *)
  writeFile : string -> gmap string JsValue -> option Thrown;
  (** the names of [vscode.window.terminals] *)
  terminals : list string;
  (** [path.dirname], [path.join] *)
  dirname : string -> string;
  join : string -> string -> string;
  (** [Constants.NoEnvironmentSelectedName] *)
  noEnvironmentSelectedName : string
}.

Inductive Terminal :=
| Existing (index : nat)   (* an element of vscode.window.terminals *)
| Created.                 (* the result of createTerminal *)

(** What the method does to the host; [WriteFile path object] writes the
    text [JSON.stringify(object, null, 2)]. *)
Inductive Action :=
| ShowErrorMessage (message : string)
| WriteFile (path : string) (object : gmap string JsValue)
| CreateTerminal (name : string)
| Show (terminal : Terminal)
| SendText (terminal : Terminal) (text : string).

Definition noEnvironmentPickItem (h : Host) : Item :=
  {| label := "No Environment"; name := noEnvironmentSelectedName h |}.

Definition filterEnvironmentVars (vars : gmap string JsValue)
  : gmap string JsValue :=
  delete "auto_fetch_token_data" vars.

(** [getCurrentEnvironment]: the stored environment or the item for none. *)
Definition getCurrentEnvironment (h : Host) : result Item :=
  rbind (storedEnvironment h) (fun stored =>
  Return (default (noEnvironmentPickItem h) stored)).

(** [settings.environmentVariables[name] || {}] *)
Definition variablesOf (h : Host) (environment : string)
  : gmap string JsValue :=
  default ∅ (environmentVariables h !! environment).

(** [combinedVars] *)
Definition combinedVars (h : Host) (currentEnvironment : Item)
  : gmap string JsValue :=
  let sharedVars := filterEnvironmentVars (variablesOf h "$shared") in
  let currentEnvVars :=
    if negb (String.eqb (name currentEnvironment)
                        (noEnvironmentSelectedName h))
    then filterEnvironmentVars (variablesOf h (name currentEnvironment))
    else ∅ in
  currentEnvVars ∪ sharedVars.

Definition command (fileName : string) : string :=
  "http-test " +:+ Re.dquote +:+ fileName +:+ Re.dquote.

(** The end of the [try] block: the terminal. *)
Definition startTerminal (h : Host) (fileName : string) : list Action :=
  match list_find (fun t => t = "HTTP Test") (terminals h) with
  | Some (index, _) =>
      [Show (Existing index); SendText (Existing index) "cls";
       SendText (Existing index) (command fileName)]
  | None =>
      [CreateTerminal "HTTP Test"; Show Created;
       SendText Created (command fileName)]
  end.

Definition failure (error : Thrown) : Action :=
  ShowErrorMessage ("Failed to create variables.json: " +:+ error_text error).

Definition runHttpTest (h : Host) : list Action :=
  match activeEditor h with
  | None => [ShowErrorMessage "No active editor found."]
  | Some fileName =>
      if negb (endsWith ".http" fileName)
      then [ShowErrorMessage "The active file is not an .http file."]
      else
        match getCurrentEnvironment h with
        | Throw error => [failure error]
        | Return currentEnvironment =>
            let combined := combinedVars h currentEnvironment in
            let variablesPath := join h (dirname h fileName) "variables.json" in
            WriteFile variablesPath combined ::
            match writeFile h variablesPath combined with
            | Some error => [failure error]
            | None => startTerminal h fileName
            end
        end
  end.

(** An example host: a script is open, the environment [dev] is selected,
    and a terminal of the runner exists. *)
Definition posix_dirname (file : string) : string :=
  Js.join "/" (removelast (Js.split "/" file)).

Definition example_host (fileName : string) : Host :=
  {| activeEditor := Some fileName;
     environmentVariables :=
       {[ "$shared" := {[ "host" := JsString "example.test";
                          "token" := JsString "shared" ]};
          "dev" := {[ "token" := JsString "dev";
                      "auto_fetch_token_data" := JsObject [] ]} ]};
     storedEnvironment := Return (Some (mkItem "dev" "dev"));
     writeFile := fun _ _ => None;
     terminals := ["bash"; "HTTP Test"];
     dirname := posix_dirname;
     join := fun dir file => dir +:+ "/" +:+ file;
     noEnvironmentSelectedName := "none" |}.

End Controller.

(** ** The environment controller (controllers/environmentController)

    Two parts of the token fetch that compute on data: the reading of the
    client credentials from the text of the [.env] file and the lookup of
    the token in the response. *)

Module Environment.

(** [key === name] for a string [key] and any value [name]. *)
Definition is_name (key : option string) (name : JsValue) : bool :=
  match key, name with
  | Some k, JsString n => String.eqb k n
  | None, JsUndefined => true
  | _, _ => false
  end.

(** [const [key, value] = line.split('=').map(part => part.trim())] *)
Definition entry (line : string) : option string * option string :=
  let parts := Js.trim <$> Js.split "=" line in
  (parts !! 0%nat, parts !! 1%nat).

(** The body of the loop over the lines: [clientId] and [clientSecret]. *)
Definition read_line (idName secretName : JsValue)
    (found : option string * option string) (line : string)
  : option string * option string :=
  let '(key, value) := entry line in
  (if is_name key idName then value else found.1,
   if is_name key secretName then value else found.2).

(** The loop of [getTokenForEnvironment] over [envContent.split('\n')]. *)
Definition read_credentials (idName secretName : JsValue)
    (envContent : string) : option string * option string :=
  fold_left (read_line idName secretName) (Js.split Logger.lf envContent)
            (None, None).

(** [!clientId || !clientSecret] *)
Definition credentials_missing (found : option string * option string)
  : bool :=
  match truthy_value found.1, truthy_value found.2 with
  | Some _, Some _ => false
  | _, _ => true
  end.

(** The number [n] as a value. *)
Definition number_of_nat (n : nat) : JsValue :=
  let '(m, e) := Json.normalize (S n) (Z.of_nat n) 0 in JsNumber m e.

(** The index that a key names in a sequence of [len] elements. *)
Definition index_of (key : string) (len : nat) : option nat :=
  fst <$> list_find (fun i => pretty i = key) (seq 0 len).

Fixpoint find_member (key : string) (members : list (string * JsValue))
  : option JsValue :=
  match members with
  | [] => None
  | (k, v) :: rest => if String.eqb k key then Some v else find_member key rest
  end.

Fixpoint nth_char (s : string) (i : nat) : option string :=
  match s, i with
  | EmptyString, _ => None
  | String c _, O => Some (String c EmptyString)
  | String _ s', S i' => nth_char s' i'
  end.

(** The own property [key] of a value: a member of an object (the keys of
    an object are distinct), an element or the length of an array, a
    character or the length of a string. *)
Definition own_property (v : JsValue) (key : string) : option JsValue :=
  match v with
  | JsObject members => find_member key members
  | JsArray items =>
      if String.eqb key "length" then Some (number_of_nat (length items))
      else index_of key (length items) ≫= fun i => items !! i
  | JsString s =>
      if String.eqb key "length" then Some (number_of_nat (Js.length s))
      else index_of key (Js.length s) ≫= fun i => JsString <$> nth_char s i
  | _ => None
  end.

Section Lookup.

(** Whether the prototype chain of a value has a property: the methods and
    the other properties that objects, arrays, strings, numbers and
    booleans inherit.  Their values are not data, so a lookup that finds one
    leaves the model: its result is [None]. *)
Variable inherited : JsValue -> string -> bool.

(** [acc[key]] *)
Definition property (acc : JsValue) (key : string) : option JsValue :=
  match own_property acc key with
  | Some v => Some v
  | None => if inherited acc key then None else Some JsUndefined
  end.

(** [acc && acc[key]] *)
Definition step (acc : option JsValue) (key : string) : option JsValue :=
  acc ≫= fun a => if js_truthy a then property a key else Some a.

(** [path.reduce((acc, key) => acc && acc[key], obj)] *)
Definition getNestedValue (obj : JsValue) (path : list string)
  : option JsValue :=
  fold_left step path (Some obj).

End Lookup.

(** Examples: the text of a [.env] file whose secret ends with the padding
    of base64; a response with a token; no inherited property is asked
    for. *)
Definition env_text : string :=
  "CLIENT_ID = app" +:+ Logger.lf +:+ "CLIENT_SECRET=c2VjcmV0PT0==".

Definition token_response : JsValue :=
  JsObject [("data", JsObject [("access_token", JsString "abc");
                               ("expires_in", JsNumber 0 0)])].

Definition own_only (v : JsValue) (key : string) : bool := false.

End Environment.

(** * Properties *)

(** ** The steps of [execute] *)

Section Steps.

Variable w : World.
Variable baseDir : string.

Lemma checkServerStatus_eq calls url :
  checkServerStatus w url calls =
  (if probe_times_out w calls url
   then Throw (newRequestError (server_not_responding url))
   else Return tt,
   calls ++ [probe url]).
Proof.
  unfold checkServerStatus, probe_times_out, try_catch, bind, fetch.
  destruct (net w calls (probe url)) as [r|e]; [reflexivity|].
  destruct (is_request_timeout e); reflexivity.
Qed.

Lemma handle_request_error msg p calls :
  handleRequestError (newRequestError msg) p calls =
  (Throw (newRequestError (failed (rq_url p) msg)), calls).
Proof. reflexivity. Qed.

(** [execute], step by step. *)
Lemma execute_steps request calls :
  let p := applyVariables w request in
  let url := rq_url p in
  execute w baseDir request calls =
  if url_parses w url then
    if probe_times_out w calls url
    then (Throw (newRequestError (failed url (server_not_responding url))),
          calls ++ [probe url])
    else main_phase w baseDir p (calls ++ [probe url])
  else (Throw (newRequestError (failed url ("Invalid URL: " +:+ url))), calls).
Proof.
  intros p url. unfold execute. fold p. fold url.
  unfold try_catch at 1. unfold bind at 1. unfold validateUrl.
  destruct (url_parses w url); [|reflexivity].
  unfold ret at 1. unfold bind at 1.
  rewrite checkServerStatus_eq.
  destruct (probe_times_out w calls url); [reflexivity|].
  reflexivity.
Qed.

End Steps.

Section Outcomes.

Variable w : World.
Variable baseDir : string.

(** The error handler makes no call. *)
Lemma handleRequestError_calls error p calls :
  (handleRequestError error p calls).2 = calls.
Proof.
  unfold handleRequestError.
  destruct (is_request_timeout error); [reflexivity|].
  destruct error as [cls msg ty [resp|]|shown]; try reflexivity.
  unfold bind, text. destruct (fr_text resp); reflexivity.
Qed.

(** The three ways of the error handler. *)
Lemma handleRequestError_eq error p calls :
  handleRequestError error p calls =
  (if is_request_timeout error
   then Throw (newRequestError (timed_out (rq_url p)))
   else match attached_response error with
        | Some response =>
            match fr_text response with
            | TextOk s =>
                Return {| status := fr_status response;
                          headers := fromEntries (fr_entries response);
                          data := JsString s |}
            | TextFails t => Throw t
            end
        | None => Throw (newRequestError (failed (rq_url p) (error_text error)))
        end,
   calls).
Proof.
  unfold handleRequestError.
  destruct (is_request_timeout error); [reflexivity|].
  destruct error as [cls msg ty [resp|]|shown]; try reflexivity.
  unfold bind, text. simpl. destruct (fr_text resp); reflexivity.
Qed.

(** The main phase, by the outcome of building the body and of the call. *)
Lemma main_phase_eq p calls :
  main_phase w baseDir p calls =
  match requestConfig w baseDir p with
  | Throw t => handleRequestError t p calls
  | Return config =>
      let call := dispatch p config in
      match net w calls call with
      | Throw error => handleRequestError error p (calls ++ [call])
      | Return response =>
          match fr_text response with
          | TextOk s =>
              (Return {| status := fr_status response;
                         headers := fromEntries (fr_entries response);
                         data := js_or (parseJson w s) (JsString s) |},
               calls ++ [call])
          | TextFails t => handleRequestError t p (calls ++ [call])
          end
      end
  end.
Proof.
  unfold main_phase, try_catch, sendRequest, bind, lift, fetch.
  destruct (requestConfig w baseDir p) as [config|t]; [|reflexivity].
  simpl. destruct (net w calls (dispatch p config)) as [response|error];
    [|reflexivity].
  unfold assemble, bind, text.
  destruct (fr_text response); reflexivity.
Qed.

(** The calls that [execute] makes. *)
Lemma execute_calls request calls :
  let p := applyVariables w request in
  let url := rq_url p in
  (execute w baseDir request calls).2 =
  calls ++
  (if url_parses w url then
     probe url ::
     (if probe_times_out w calls url then []
      else match requestConfig w baseDir p with
           | Return config => [dispatch p config]
           | Throw _ => []
           end)
   else []).
Proof.
  intros p url. rewrite execute_steps. fold p. fold url.
  destruct (url_parses w url); [|by rewrite app_nil_r].
  destruct (probe_times_out w calls url); [reflexivity|].
  rewrite main_phase_eq.
  destruct (requestConfig w baseDir p) as [config|t].
  - cbv zeta.
    destruct (net w (calls ++ [probe url]) (dispatch p config))
      as [response|error].
    + destruct (fr_text response); [|rewrite handleRequestError_calls];
        simpl; by rewrite <- app_assoc.
    + rewrite handleRequestError_calls. by rewrite <- app_assoc.
  - by rewrite handleRequestError_calls.
Qed.

End Outcomes.

(** ** Validation, probe and dispatch *)

(** C6.  When the substituted URL of a request is not accepted by the URL
    constructor, [execute] raises a RequestError and the calls made to the
    network are those made before: neither the probe nor the dispatch is
    issued. *)
Theorem invalid_url_raises_before_io
    (w : World) (baseDir : string) (request : HttpRequest)
    (calls : list FetchCall) :
  let url := rq_url (applyVariables w request) in
  url_parses w url = false ->
  execute w baseDir request calls =
  (Throw (newRequestError (failed url ("Invalid URL: " +:+ url))), calls).
Proof.
  intros url Hurl. rewrite execute_steps. fold url. rewrite Hurl. reflexivity.
Qed.

Lemma invalid_url_witness :
  execute Example.plain_world "/work" (Example.get "not a url") [] =
  (Throw (newRequestError "Request to not a url failed: Invalid URL: not a url"),
   []).
Proof.
  apply (invalid_url_raises_before_io Example.plain_world "/work"
           (Example.get "not a url") []).
  vm_compute. reflexivity.
Defined.

(** C5.  For a request with a valid URL the first call of [execute] is the
    probe, a HEAD call to the URL with a timeout of 5000 ms.  The probe step
    raises exactly when the probe fails with an error typed as a request
    timeout, and [execute] then raises a RequestError that reports the server
    as not responding, without a dispatch.  After any other outcome of the
    probe, failures included, [execute] goes on with the main phase. *)
Theorem probe_timeout_only
    (w : World) (baseDir : string) (request : HttpRequest)
    (calls : list FetchCall) :
  let p := applyVariables w request in
  let url := rq_url p in
  url_parses w url = true ->
  (probe url = {| fc_url := url; fc_method := "HEAD"; fc_headers := ∅;
                  fc_body := PayloadValue JsUndefined; fc_agent := agent;
                  fc_timeout := 5000 |})
  /\ (exists later, (execute w baseDir request calls).2
                    = calls ++ probe url :: later)
  /\ ((checkServerStatus w url calls).1
        = Throw (newRequestError (server_not_responding url))
      <-> exists e, net w calls (probe url) = Throw e
                    /\ is_request_timeout e = true)
  /\ (forall e, net w calls (probe url) = Throw e ->
        is_request_timeout e = true ->
        execute w baseDir request calls =
        (Throw (newRequestError (failed url (server_not_responding url))),
         calls ++ [probe url]))
  /\ (forall e, net w calls (probe url) = Throw e ->
        is_request_timeout e = false ->
        (checkServerStatus w url calls).1 = Return tt
        /\ execute w baseDir request calls =
           main_phase w baseDir p (calls ++ [probe url]))
  /\ (forall r, net w calls (probe url) = Return r ->
        execute w baseDir request calls =
        main_phase w baseDir p (calls ++ [probe url])).
Proof.
  intros p url Hurl.
  pose proof (execute_steps w baseDir request calls) as Hsteps.
  cbv zeta in Hsteps. fold p in Hsteps. fold url in Hsteps.
  rewrite Hurl in Hsteps.
  pose proof (checkServerStatus_eq w calls url) as Hprobe.
  unfold probe_times_out in Hsteps, Hprobe.
  split; [reflexivity|]. split.
  - pose proof (execute_calls w baseDir request calls) as Hcalls.
    cbv zeta in Hcalls. fold p in Hcalls. fold url in Hcalls.
    rewrite Hurl in Hcalls. rewrite Hcalls. eauto.
  - split; [|split; [|split]].
    + rewrite Hprobe. simpl. split.
      * destruct (net w calls (probe url)) as [r|e]; [discriminate|].
        destruct (is_request_timeout e) eqn:He; [|discriminate].
        intros _. by exists e.
      * intros (e & -> & ->). reflexivity.
    + intros e He Ht. rewrite Hsteps, He, Ht. reflexivity.
    + intros e He Ht. rewrite Hprobe, Hsteps, He, Ht. by split.
    + intros r Hr. rewrite Hsteps, Hr. reflexivity.
Qed.

Lemma probe_timeout_only_witness :
  execute Example.silent_world "/work" Example.ping [] =
  (Throw (newRequestError
            "Request to https://example.test/ping failed: Server is not responding at https://example.test/ping. Please check if the server is running."),
   [probe "https://example.test/ping"]).
Proof.
  destruct (probe_timeout_only Example.silent_world "/work" Example.ping []
              eq_refl)
    as (_ & _ & _ & H & _).
  apply (H Example.timeout_error); reflexivity.
Defined.

(** C7.  The calls that [execute] makes are the probe and, unless the URL is
    refused, the probe times out or the body cannot be built, the dispatch.
    Whatever the world, the request and the headers and body that are sent,
    the dispatch has a timeout of 10000 ms and goes through the agent of the
    executor, which does not reject unauthorized certificates; the probe goes
    through the same agent. *)
Theorem dispatch_timeout_and_agent
    (w : World) (baseDir : string) (request : HttpRequest)
    (calls : list FetchCall) :
  let p := applyVariables w request in
  let url := rq_url p in
  (execute w baseDir request calls).2 =
    calls ++
    (if url_parses w url then
       probe url ::
       (if probe_times_out w calls url then []
        else match requestConfig w baseDir p with
             | Return config => [dispatch p config]
             | Throw _ => []
             end)
     else [])
  /\ (forall config,
        fc_timeout (dispatch p config) = 10000
        /\ fc_agent (dispatch p config) = fc_agent (probe url)
        /\ rejectUnauthorized (fc_agent (dispatch p config)) = false)
  /\ rejectUnauthorized (fc_agent (probe url)) = false
  /\ fc_timeout (probe url) = 5000.
Proof.
  intros p url. split; [apply execute_calls|]. by repeat split.
Qed.

(** ** Failure classification *)

(** C2.  A dispatch failure outside the three outcomes.  The dispatch fails
    with an error that is not a timeout and carries a response whose body
    cannot be read, here because it was read before.  [execute] then
    neither returns a Response nor raises a RequestError: the error of
    reading the body, a TypeError, is raised as it is, after the probe and
    the dispatch.  When the same response is the answer to the dispatch, the
    same failure of reading its body is raised as a RequestError with the
    message of the error in it: the reading inside the [try] block of
    [execute] is classified, the reading inside [handleRequestError] is
    not. *)
Theorem attached_body_read_failure_escapes :
  let calls := [probe "https://example.test/ping";
                dispatch Example.ping (∅, PayloadValue JsUndefined)] in
  net Example.consumed_world [probe "https://example.test/ping"]
      (dispatch Example.ping (∅, PayloadValue JsUndefined))
    = Throw Example.error_with_consumed_response
  /\ is_request_timeout Example.error_with_consumed_response = false
  /\ attached_response Example.error_with_consumed_response
     = Some Example.consumed_response
  /\ execute Example.consumed_world "/work" Example.ping []
     = (Throw Example.body_used, calls)
  /\ (forall message, Example.body_used <> newRequestError message)
  /\ execute Example.unreadable_world "/work" Example.ping []
     = (Throw (newRequestError
                 "Request to https://example.test/ping failed: body used already for: https://example.test/ping"),
        calls).
Proof.
  cbv zeta. do 3 (split; [reflexivity|]).
  split; [vm_compute; reflexivity|]. split; [discriminate|].
  vm_compute; reflexivity.
Qed.

(** C9.  When the dispatch fails with an error that is not a request
    timeout and has an attached response, [execute] returns a Response whose
    data is the body text of the attached response as a string: the JSON
    helper is not consulted, whatever it would make of that text. *)
Theorem error_response_data_is_raw_text
    (w : World) (baseDir : string) (request : HttpRequest)
    (calls : list FetchCall) (config : gmap string string * Payload)
    (error : Thrown) (response : FetchResponse) (s : string) :
  let p := applyVariables w request in
  let url := rq_url p in
  url_parses w url = true ->
  probe_times_out w calls url = false ->
  requestConfig w baseDir p = Return config ->
  net w (calls ++ [probe url]) (dispatch p config) = Throw error ->
  is_request_timeout error = false ->
  attached_response error = Some response ->
  fr_text response = TextOk s ->
  (execute w baseDir request calls).1 =
  Return {| status := fr_status response;
            headers := fromEntries (fr_entries response);
            data := JsString s |}.
Proof.
  intros p url Hurl Hprobe Hconfig Hnet Htimeout Hresponse Htext.
  rewrite execute_steps. fold p. fold url. rewrite Hurl, Hprobe.
  rewrite main_phase_eq, Hconfig. cbv zeta. rewrite Hnet.
  rewrite handleRequestError_eq, Htimeout, Hresponse, Htext. reflexivity.
Qed.

Lemma error_response_data_is_raw_text_witness :
  parseJson Example.not_found_world "{ }" = JsObject []
  /\ (execute Example.not_found_world "/work" Example.ping []).1 =
     Return {| status := 404;
               headers := fromEntries [("content-type", "application/json")];
               data := JsString "{ }" |}.
Proof.
  split; [reflexivity|].
  apply (error_response_data_is_raw_text Example.not_found_world "/work"
           Example.ping [] (∅, PayloadValue JsUndefined)
           Example.error_with_response Example.not_found_response "{ }");
    vm_compute; reflexivity.
Defined.

(** ** Response assembly *)

(** On a successful dispatch the data of the Response is the value of the
    JSON helper when that value is truthy, and the body text otherwise. *)
Lemma success_data
    (w : World) (baseDir : string) (request : HttpRequest)
    (calls : list FetchCall) (config : gmap string string * Payload)
    (response : FetchResponse) (s : string) :
  let p := applyVariables w request in
  let url := rq_url p in
  url_parses w url = true ->
  probe_times_out w calls url = false ->
  requestConfig w baseDir p = Return config ->
  net w (calls ++ [probe url]) (dispatch p config) = Return response ->
  fr_text response = TextOk s ->
  (execute w baseDir request calls).1 =
  Return {| status := fr_status response;
            headers := fromEntries (fr_entries response);
            data := if js_truthy (parseJson w s) then parseJson w s
                    else JsString s |}.
Proof.
  intros p url Hurl Hprobe Hconfig Hnet Htext.
  rewrite execute_steps. fold p. fold url. rewrite Hurl, Hprobe.
  rewrite main_phase_eq, Hconfig. cbv zeta. rewrite Hnet, Htext. reflexivity.
Qed.

(** The example of the specification: a server that answers 200 with the
    body [{"ok":true}]. *)
Lemma served_ok_true :
  (Example.served ("{" +:+ Re.dquote +:+ "ok" +:+ Re.dquote +:+ ":true}")).1
  = Return (Example.ok (JsObject [("ok", JsBool true)])).
Proof. vm_compute. reflexivity. Qed.

(** Whatever the JSON helper gives, [||] never delivers a falsy value other
    than the body text. *)
Lemma falsy_value_not_delivered (helped v : JsValue) (s : string) :
  js_truthy v = false -> v <> JsString s ->
  js_or helped (JsString s) <> v.
Proof.
  intros Hfalsy Hs. unfold js_or.
  destruct (js_truthy helped) eqn:Hhelped; congruence.
Qed.

Lemma served_with_eq (helper : string -> JsValue) (body : string) :
  (Example.served_with helper body).1 =
  Return (Example.ok (js_or (helper body) (JsString body))).
Proof. reflexivity. Qed.

(** C1.  The bodies [0], [false], [null] and the empty JSON string are JSON
    texts, with the values 0, false, null and the empty string.  For a
    server that answers 200 with such a body, the data of the Response of
    [execute] is not the parsed value, whatever the JSON helper does; with
    the helper that parses or gives [undefined], it is the body text, a
    string. *)
Theorem falsy_json_body_kept_as_text :
  let empty := Re.dquote +:+ Re.dquote in
  (Json.parse "0" = Some (JsNumber 0 0)
   /\ Json.parse "false" = Some (JsBool false)
   /\ Json.parse "null" = Some JsNull
   /\ Json.parse empty = Some (JsString EmptyString))
  /\ (forall helper,
        (exists r, (Example.served_with helper "0").1 = Return r
                   /\ data r <> JsNumber 0 0)
        /\ (exists r, (Example.served_with helper "false").1 = Return r
                      /\ data r <> JsBool false)
        /\ (exists r, (Example.served_with helper "null").1 = Return r
                      /\ data r <> JsNull)
        /\ (exists r, (Example.served_with helper empty).1 = Return r
                      /\ data r <> JsString EmptyString))
  /\ ((Example.served "0").1 = Return (Example.ok (JsString "0"))
      /\ (Example.served "false").1 = Return (Example.ok (JsString "false"))
      /\ (Example.served "null").1 = Return (Example.ok (JsString "null"))
      /\ (Example.served empty).1 = Return (Example.ok (JsString empty))).
Proof.
  intros empty. split; [by vm_compute|]. split; [|by vm_compute].
  intros helper. repeat split; eexists; (split; [apply served_with_eq|]);
    cbn [data Example.ok]; by apply falsy_value_not_delivered.
Qed.

(** ** Variable substitution *)

(** C8, as stated, fails on a structured body: with [host] and [id] bound,
    the url and the header of the request are substituted, but the placeholder
    inside the body is not, and the body that is dispatched still has it. *)
Lemma structured_body_not_substituted :
  applyVariables Example.item_world Example.post_item
    <> applyVariables_spec Example.item_world Example.post_item
  /\ rq_body (applyVariables_spec Example.item_world Example.post_item)
     = JsObject [("id", JsString "7")]
  /\ (execute Example.item_world "/work" Example.post_item []).2
     = [probe "https://example.test/items";
        {| fc_url := "https://example.test/items"; fc_method := "POST";
           fc_headers := {[ "Content-Type" := "application/json";
                            "X-Item" := "7" ]};
           fc_body := PayloadStringified
                        (JsObject [("id", JsString "${id}")]);
           fc_agent := agent; fc_timeout := 10000 |}].
Proof.
  split; [|split].
  - intros H. apply (f_equal rq_body) in H. vm_compute in H. discriminate H.
  - vm_compute. reflexivity.
  - vm_compute. reflexivity.
Qed.

(** C8, amended.  The request that [execute] works on has the url and every
    header value of the given request with the variables replaced, and the
    body with the variables replaced when the body is a string; a body that
    is not a string is passed on as it is.  The probe and the dispatch are
    made from that request. *)
Theorem variables_applied_to_url_headers_and_text_body
    (w : World) (baseDir : string) (request : HttpRequest)
    (calls : list FetchCall) :
  let p := applyVariables w request in
  rq_url p = replaceVariables w (rq_url request)
  /\ (forall k : string,
        rq_headers p !! k = replaceVariables w <$> rq_headers request !! k)
  /\ rq_body p = match rq_body request with
                 | JsString s => JsString (replaceVariables w s)
                 | other => other
                 end
  /\ rq_method p = rq_method request
  /\ (execute w baseDir request calls).2 =
     calls ++
     (if url_parses w (rq_url p) then
        probe (rq_url p) ::
        (if probe_times_out w calls (rq_url p) then []
         else match requestConfig w baseDir p with
              | Return config => [dispatch p config]
              | Throw _ => []
              end)
      else []).
Proof.
  intros p. split; [reflexivity|]. split.
  { intros k. unfold p, applyVariables. simpl. apply lookup_fmap. }
  split.
  { reflexivity. }
  split; [reflexivity|]. apply execute_calls.
Qed.

(** ** Strings and patterns *)

Section StringFacts.

Lemma append_cons (c : ascii) (s t : string) :
  String c s +:+ t = String c (s +:+ t).
Proof. reflexivity. Qed.

Lemma append_empty_l (t : string) : EmptyString +:+ t = t.
Proof. reflexivity. Qed.

Lemma append_empty_r (s : string) : s +:+ EmptyString = s.
Proof. induction s as [|c s IH]; [reflexivity|]. by rewrite append_cons, IH. Qed.

Lemma append_assoc (s t u : string) : (s +:+ t) +:+ u = s +:+ (t +:+ u).
Proof.
  induction s as [|c s IH]; [reflexivity|]. by rewrite !append_cons, IH.
Qed.

Lemma rev_onto_append (s acc : string) :
  Js.rev_onto acc s = Js.rev_onto EmptyString s +:+ acc.
Proof.
  revert acc. induction s as [|c s IH]; intros acc; simpl; [reflexivity|].
  rewrite (IH (String c acc)), (IH (String c EmptyString)).
  by rewrite append_assoc.
Qed.

Lemma rev_onto_cons (c : ascii) (cur : string) :
  Js.rev_onto EmptyString (String c cur)
  = Js.rev_onto EmptyString cur +:+ String c EmptyString.
Proof. simpl. apply rev_onto_append. Qed.

Lemma starts_with_space_cons (c : ascii) (s : string) :
  Js.starts_with " " (String c s) = Ascii.eqb " " c.
Proof.
  unfold Js.starts_with. cbn [Js.strip_prefix].
  by destruct (Ascii.eqb " " c).
Qed.

Lemma includes_space_cons (c : ascii) (s : string) :
  Js.includes " " (String c s) = Ascii.eqb " " c || Js.includes " " s.
Proof. cbn [Js.includes]. by rewrite starts_with_space_cons. Qed.

(** Splitting at spaces a text that has none gives the text. *)
Lemma split_go_no_space (s cur : string) :
  Js.includes " " s = false ->
  Js.split_go " " 0 cur s = [Js.rev_onto EmptyString cur +:+ s].
Proof.
  revert cur. induction s as [|c s IH]; intros cur Hs.
  - simpl. by rewrite append_empty_r.
  - rewrite includes_space_cons in Hs. apply orb_false_elim in Hs as [Hc Hs].
    cbn [Js.split_go]. rewrite starts_with_space_cons, Hc.
    rewrite (IH _ Hs), rev_onto_cons, append_assoc. reflexivity.
Qed.

(** Splitting at spaces cuts at the first space. *)
Lemma split_go_first_space (a t cur : string) :
  Js.includes " " a = false ->
  Js.split_go " " 0 cur (a +:+ " " +:+ t)
  = (Js.rev_onto EmptyString cur +:+ a) :: Js.split_go " " 0 EmptyString t.
Proof.
  revert cur. induction a as [|c a IH]; intros cur Ha.
  - rewrite append_empty_l, append_empty_r. reflexivity.
  - rewrite includes_space_cons in Ha. apply orb_false_elim in Ha as [Hc Ha].
    rewrite append_cons. cbn [Js.split_go].
    rewrite starts_with_space_cons, Hc.
    rewrite (IH _ Ha), rev_onto_cons, append_assoc. reflexivity.
Qed.

Lemma second_token_none (content : string) :
  Js.includes " " content = false -> second_token content = None.
Proof.
  intros H. unfold second_token, Js.split.
  rewrite (split_go_no_space content EmptyString H). reflexivity.
Qed.

Lemma second_token_some (first path rest : string) :
  Js.includes " " first = false ->
  Js.includes " " path = false ->
  rest = EmptyString \/ Js.starts_with " " rest = true ->
  second_token (first +:+ " " +:+ path +:+ rest) = Some path.
Proof.
  intros Hfirst Hpath Hrest. unfold second_token, Js.split.
  rewrite (split_go_first_space first (path +:+ rest) EmptyString Hfirst).
  destruct Hrest as [->|Hrest].
  - rewrite append_empty_r, (split_go_no_space path EmptyString Hpath).
    reflexivity.
  - destruct rest as [|c rest]; [discriminate|].
    rewrite starts_with_space_cons in Hrest.
    apply Ascii.eqb_eq in Hrest as <-.
    change (String " " rest) with (" " +:+ rest).
    rewrite (split_go_first_space path rest EmptyString Hpath). reflexivity.
Qed.

End StringFacts.

Section PatternFacts.

Lemma match_here_lazy_cons (p : list Re.item) (c : ascii) (s : string) :
  Re.match_here (Re.LazyGroup :: p) (String c s) =
  if Js.is_line_terminator c then None
  else match Re.match_here p s with
       | Some caps => Some (String c EmptyString :: caps)
       | None => Re.match_here (Re.LazyGroup :: p) s ≫= Re.cons_first c
       end.
Proof. reflexivity. Qed.

Lemma match_here_lit (l : string) (p : list Re.item) (s : string) :
  Re.match_here (Re.Lit l :: p) s =
  match Js.strip_prefix l s with
  | Some s' => Re.match_here p s'
  | None => None
  end.
Proof. reflexivity. Qed.

(** A match found by [search] is a match at some position of the text. *)
Lemma search_inv (p : list Re.item) (s : string) (m : list string) :
  Re.search p s = Some m ->
  exists pre t, s = pre +:+ t /\ Re.match_here p t = Some m.
Proof.
  induction s as [|c s IH]; cbn [Re.search]; intros H.
  - exists EmptyString, EmptyString. split; [reflexivity|].
    by destruct (Re.match_here p EmptyString).
  - destruct (Re.match_here p (String c s)) as [m'|] eqn:Hm.
    + exists EmptyString, (String c s). split; [reflexivity|]. congruence.
    + destruct (IH H) as (pre & t & -> & Ht).
      exists (String c pre), t. by split.
Qed.

(** A match at some position of the text makes [search] succeed. *)
Lemma search_complete (p : list Re.item) (pre t : string) (m : list string) :
  Re.match_here p t = Some m -> is_Some (Re.search p (pre +:+ t)).
Proof.
  intros Ht. induction pre as [|c pre IH].
  - rewrite append_empty_l. destruct t; cbn [Re.search]; rewrite Ht; eauto.
  - rewrite append_cons. cbn [Re.search].
    destruct (Re.match_here p (String c (pre +:+ t))); eauto.
Qed.

(** A lazy group before a closing literal captures one non-empty text. *)
Lemma lazy_group_capture (l : string) (s : string) (m : list string) :
  Re.match_here [Re.LazyGroup; Re.Lit l] s = Some m ->
  exists cap, m = [cap] /\ Js.truthy cap = true.
Proof.
  revert m. induction s as [|c s IH]; intros m; [discriminate|].
  rewrite match_here_lazy_cons.
  destruct (Js.is_line_terminator c); [discriminate|].
  destruct (Re.match_here [Re.Lit l] s) as [caps|] eqn:Hlit.
  - rewrite match_here_lit in Hlit.
    destruct (Js.strip_prefix l s); [|discriminate].
    cbn [Re.match_here] in Hlit. injection Hlit as <-.
    intros [= <-]. by exists (String c EmptyString).
  - destruct (Re.match_here [Re.LazyGroup; Re.Lit l] s) as [m0|];
      [|discriminate].
    destruct (IH m0 eq_refl) as (cap & -> & _).
    cbn. intros [= <-]. by exists (String c cap).
Qed.

Lemma quoted_param_capture (key : string) (s : string) (m : list string) :
  Re.match_here [Re.Lit key; Re.LazyGroup; Re.Lit Re.dquote] s = Some m ->
  exists cap, m = [cap] /\ Js.truthy cap = true.
Proof.
  rewrite match_here_lit. destruct (Js.strip_prefix key s); [|discriminate].
  apply lazy_group_capture.
Qed.

Lemma strip_prefix_cons (a : ascii) (p s r : string) :
  Js.strip_prefix (String a p) s = Some r ->
  exists s', s = String a s' /\ Js.strip_prefix p s' = Some r.
Proof.
  destruct s as [|b s]; [discriminate|].
  cbn [Js.strip_prefix]. destruct (Ascii.eqb a b) eqn:Hab; [|discriminate].
  apply Ascii.eqb_eq in Hab as <-. intros H. by exists s.
Qed.

(** Where [filename="..."] matches, [name="..."] matches four characters
    later, with the same capture. *)
Lemma filename_match_is_name_match (t : string) (m : list string) :
  Re.match_here Re.filename_re t = Some m ->
  exists t', t = "file" +:+ t' /\ Re.match_here Re.name_re t' = Some m.
Proof.
  unfold Re.filename_re, Re.name_re. rewrite !match_here_lit.
  destruct (Js.strip_prefix ("filename=" +:+ Re.dquote) t) as [r|] eqn:Hr;
    [|discriminate].
  intros Hm.
  change ("filename=" +:+ Re.dquote)
    with (String "f" (String "i" (String "l" (String "e"
            ("name=" +:+ Re.dquote))))) in Hr.
  apply strip_prefix_cons in Hr as (t1 & -> & Hr).
  apply strip_prefix_cons in Hr as (t2 & -> & Hr).
  apply strip_prefix_cons in Hr as (t3 & -> & Hr).
  apply strip_prefix_cons in Hr as (t' & -> & Hr).
  exists t'. split; [reflexivity|].
  rewrite match_here_lit, Hr. exact Hm.
Qed.

(** A Content-Disposition that declares a file name declares a name. *)
Lemma filename_declares_name (cd : string) (m : list string) :
  Re.search Re.filename_re cd = Some m ->
  (exists filename, m = [filename] /\ Js.truthy filename = true)
  /\ (exists name, Re.search Re.name_re cd = Some [name]
                   /\ Js.truthy name = true).
Proof.
  intros H. destruct (search_inv _ _ _ H) as (pre & t & -> & Ht).
  split; [by apply (quoted_param_capture _ _ _ Ht)|].
  destruct (filename_match_is_name_match _ _ Ht) as (t' & -> & Ht').
  destruct (search_complete Re.name_re (pre +:+ "file") t' m Ht') as [m' Hm'].
  rewrite append_assoc in Hm'.
  destruct (search_inv _ _ _ Hm') as (pre' & u & _ & Hu).
  destruct (quoted_param_capture _ _ _ Hu) as (name & -> & Hname).
  by exists name.
Qed.

End PatternFacts.

(** ** Multipart bodies *)

Section Multipart.

Variable w : World.
Variable baseDir : string.

Lemma buildFormData_file (formData : FormData) (part : string)
    (headers : gmap string string) (content cd : string) (m : list string) :
  part_fields part = (headers, Some content) ->
  Js.truthy content = true ->
  headers !! "content-disposition" = Some cd ->
  Re.search Re.filename_re cd = Some m ->
  exists name filename,
    Re.search Re.name_re cd = Some [name]
    /\ m = [filename]
    /\ buildFormData w baseDir formData part =
       file_outcome w baseDir formData name
         {| opt_filename := Some filename;
            opt_contentType := truthy_value (headers !! "content-type") |}
         (second_token content).
Proof.
  intros Hfields Hcontent Hcd Hm.
  destruct (filename_declares_name cd m Hm)
    as [(filename & -> & Hfilename) (name & Hname & Hname_truthy)].
  exists name, filename. split; [done|]. split; [done|].
  assert (Js.truthy cd = true) as Hcd_truthy.
  { destruct cd; [discriminate Hm|reflexivity]. }
  unfold buildFormData, file_outcome. rewrite Hfields, Hcd.
  unfold disposition_param. cbn [truthy_value]. rewrite Hcd_truthy, Hm, Hname.
  cbn [group nth Nat.pred truthy_value]. rewrite Hname_truthy, Hfilename, Hcontent.
  destruct (truthy_value (second_token content)) as [filePath|]; [|reflexivity].
  by destruct (existsSync w (path_resolve w baseDir filePath)).
Qed.

End Multipart.

(** C10.  For a file part, that is, a part whose Content-Disposition
    declares a file name and whose content is not empty, [buildFormData]
    takes as the local file path the second piece of the content split at
    spaces, not the content: with no space in the content it throws the
    invalid-file-path error, and a path with spaces in it is cut at its
    first space.  The path is resolved against the base directory and must
    exist. *)
Theorem file_path_is_second_token
    (w : World) (baseDir : string) (formData : FormData) (part : string)
    (headers : gmap string string) (content cd : string) (m : list string) :
  part_fields part = (headers, Some content) ->
  Js.truthy content = true ->
  headers !! "content-disposition" = Some cd ->
  Re.search Re.filename_re cd = Some m ->
  exists name options,
    buildFormData w baseDir formData part =
      match Js.split " " content !! 1%nat with
      | Some (String c filePath') =>
          let filePath := String c filePath' in
          if existsSync w (path_resolve w baseDir filePath)
          then Return (formData ++
                         [mkFormField name
                            (FieldFile (path_resolve w baseDir filePath))
                            options])
          else Throw (newError (filePath +:+ " is not found."))
      | _ => Throw (newError "Invalid file path format.")
      end
    /\ (Js.includes " " content = false ->
        buildFormData w baseDir formData part =
        Throw (newError "Invalid file path format."))
    /\ (forall first path rest,
          content = first +:+ " " +:+ path +:+ rest ->
          Js.includes " " first = false ->
          Js.includes " " path = false ->
          Js.truthy path = true ->
          rest = EmptyString \/ Js.starts_with " " rest = true ->
          buildFormData w baseDir formData part =
          if existsSync w (path_resolve w baseDir path)
          then Return (formData ++
                         [mkFormField name
                            (FieldFile (path_resolve w baseDir path)) options])
          else Throw (newError (path +:+ " is not found."))).
Proof.
  intros Hfields Hcontent Hcd Hm.
  destruct (buildFormData_file w baseDir formData part headers content cd m
              Hfields Hcontent Hcd Hm) as (name & filename & _ & _ & Hbuild).
  exists name,
    {| opt_filename := Some filename;
       opt_contentType := truthy_value (headers !! "content-type") |}.
  rewrite Hbuild. unfold file_outcome. split; [|split].
  - unfold second_token.
    by destruct (Js.split " " content !! 1%nat) as [[|c filePath']|].
  - intros Hnone. by rewrite (second_token_none content Hnone).
  - intros first path rest -> Hfirst Hpath Htruthy Hrest.
    rewrite (second_token_some first path rest Hfirst Hpath Hrest).
    cbn [truthy_value]. by rewrite Htruthy.
Qed.

Lemma file_path_is_second_token_witness :
  exists name options,
    buildFormData Example.files_world "/work" []
                  (Example.file_part "< ./my file.txt") =
    Return [mkFormField name (FieldFile "/work/my") options].
Proof.
  destruct (file_path_is_second_token Example.files_world "/work" []
              (Example.file_part "< ./my file.txt")
              {[ "content-disposition" :=
                   "form-data; " +:+ Example.quoted "name" "upload" +:+ "; "
                   +:+ Example.quoted "filename" "a.txt";
                 "content-type" := "text/plain" ]}
              "< ./my file.txt"
              ("form-data; " +:+ Example.quoted "name" "upload" +:+ "; "
               +:+ Example.quoted "filename" "a.txt")
              ["a.txt"])
    as (name & options & _ & _ & H); try (vm_compute; reflexivity).
  exists name, options.
  apply (H "<" "./my" " file.txt"); try reflexivity. by right.
Defined.

(** ** The Content-Type header *)

(** Without the keys [Content-Type] and [content-type] the headers and the
    body are sent as they are, whatever the other keys. *)
Lemma requestConfig_without_content_type
    (w : World) (baseDir : string) (request : HttpRequest) :
  rq_headers request !! "Content-Type" = None ->
  rq_headers request !! "content-type" = None ->
  requestConfig w baseDir request =
  Return (rq_headers request, PayloadValue (rq_body request)).
Proof.
  intros H1 H2. unfold requestConfig, contentTypeOf. by rewrite H1, H2.
Qed.

(** C4.  Of the four spellings [Content-Type], [content-type],
    [CONTENT-TYPE] and [Content-type] of the key of a multipart content
    type, body construction finds the first two, and builds the form and
    replaces the header; under the last two the header is not found: the
    body is sent as the text it is and the header is kept.  The sub-headers
    of a part, in contrast, are found under any spelling. *)
Theorem content_type_found_under_two_spellings_only :
  Example.sent "Content-Type"
    = Return (Example.form_headers Example.built_form,
              PayloadForm Example.built_form)
  /\ Example.sent "content-type"
     = Return (Example.form_headers Example.built_form,
               PayloadForm Example.built_form)
  /\ contentTypeOf (rq_headers (Example.upload "CONTENT-TYPE" "< ./a.txt"))
     = None
  /\ Example.sent "CONTENT-TYPE"
     = Return ({[ "CONTENT-TYPE" := "multipart/form-data; boundary=X" ]},
               PayloadValue (JsString (Example.form_body "< ./a.txt")))
  /\ Example.sent "Content-type"
     = Return ({[ "Content-type" := "multipart/form-data; boundary=X" ]},
               PayloadValue (JsString (Example.form_body "< ./a.txt")))
  /\ (part_fields (Example.line "CONTENT-DISPOSITION: form-data")).1
       !! "content-disposition" = Some "form-data".
Proof. vm_compute. repeat split. Qed.

Section MultipartRequest.

Variable w : World.
Variable baseDir : string.

Lemma includes_nonempty (needle s : string) :
  Js.truthy needle = true -> Js.includes needle s = true -> Js.truthy s = true.
Proof.
  intros Hneedle. destruct s; [|reflexivity].
  destruct needle; [discriminate|]. cbn. discriminate.
Qed.


Lemma requestConfig_multipart (request : HttpRequest)
    (contentType : string) (boundaryMatch : list string) (text : string) :
  let source := "--" +:+ Js.trim (group 1 boundaryMatch) in
  contentTypeOf (rq_headers request) = Some contentType ->
  Js.includes "application/json" contentType = false ->
  Js.includes "multipart/form-data" contentType = true ->
  Re.search Re.boundary_re contentType = Some boundaryMatch ->
  literal_source source = true ->
  rq_body request = JsString text ->
  requestConfig w baseDir request =
  rbind (fold_left (add_part w baseDir) (Js.split source text) (Return []))
    (fun form =>
       Return (getHeaders w form
                 ∪ delete "content-type"
                     (delete "Content-Type" (rq_headers request)),
               PayloadForm form)).
Proof.
  intros source Hct Hjson Hmultipart Hboundary Hliteral Hbody.
  assert (Js.truthy contentType = true) as Htruthy.
  { by apply (includes_nonempty "multipart/form-data"). }
  unfold requestConfig, parseFormData. rewrite Hct. cbn [truthy_value].
  rewrite Htruthy, Hjson, Hmultipart, Hboundary, Hbody.
  unfold split_body, split_regexp. fold source. rewrite Hliteral.
  reflexivity.
Qed.

End MultipartRequest.

(** ** Splitting and joining *)

Section SplitJoin.

Variable sep : string.

Lemma strip_prefix_append (p s r : string) :
  Js.strip_prefix p s = Some r -> s = p +:+ r.
Proof.
  revert s. induction p as [|a p IH]; intros s H.
  - cbn in H. by injection H as ->.
  - apply strip_prefix_cons in H as (s' & -> & H).
    by rewrite append_cons, <- (IH s' H).
Qed.


Lemma length_append (a r : string) :
  Js.length (a +:+ r) = (Js.length a + Js.length r)%nat.
Proof.
  induction a as [|c a IH]; [reflexivity|].
  rewrite append_cons. cbn [Js.length]. by rewrite IH.
Qed.





End SplitJoin.

Section SplitFree.

Variable sep : string.
Hypothesis sep_truthy : Js.truthy sep = true.








End SplitFree.

(** ** Multipart requests *)




(** * Further properties of the executor *)

(** ** Lines of a part *)

Section Lines.

Lemma all_space_append (a b : string) :
  Js.all_space (a +:+ b) = Js.all_space a && Js.all_space b.
Proof.
  induction a as [|c a IH]; [reflexivity|].
  rewrite append_cons. cbn [Js.all_space]. by rewrite IH, andb_assoc.
Qed.

Lemma trim_start_all_space (s : string) :
  Js.all_space s = true -> Js.trim_start s = EmptyString.
Proof.
  induction s as [|c s IH]; [reflexivity|]. cbn [Js.all_space Js.trim_start].
  intros [Hc Hs]%andb_prop. rewrite Hc. by apply IH.
Qed.

Lemma trim_start_not_all_space (s : string) :
  Js.all_space s = false ->
  exists c r, Js.trim_start s = String c r /\ Js.is_space c = false.
Proof.
  induction s as [|c s IH]; [discriminate|]. cbn [Js.all_space Js.trim_start].
  destruct (Js.is_space c) eqn:Hc; [|by exists c, s].
  cbn. exact IH.
Qed.

(** A line is blank for [line.trim().length === 0] exactly when all its
    characters are white space. *)
Lemma blank_iff_all_space (line : string) :
  Nat.eqb (Js.length (Js.trim line)) 0 = Js.all_space line.
Proof.
  unfold Js.trim. destruct (Js.all_space line) eqn:H.
  - by rewrite (trim_start_all_space line H).
  - destruct (trim_start_not_all_space line H) as (c & r & -> & Hc).
    cbn [Js.trim_end Js.all_space]. by rewrite Hc.
Qed.

Lemma match_here_greedy_cons (p : list Re.item) (c : ascii) (s : string) :
  Re.match_here (Re.GreedyGroup :: p) (String c s) =
  if Js.is_line_terminator c then None
  else match Re.match_here (Re.GreedyGroup :: p) s ≫= Re.cons_first c with
       | Some caps => Some caps
       | None =>
           match Re.match_here p s with
           | Some caps => Some (String c EmptyString :: caps)
           | None => None
           end
       end.
Proof. reflexivity. Qed.

(** A greedy group at the end of a pattern takes a whole one-line text. *)
Lemma greedy_takes_all (v : string) :
  header_value v = true -> Re.match_here [Re.GreedyGroup] v = Some [v].
Proof.
  unfold header_value. destruct v as [|c v]; [discriminate|].
  cbn [Js.truthy andb]. revert c. induction v as [|d v IH]; intros c H.
  - cbn [no_line_terminator] in H. rewrite andb_true_r in H.
    rewrite match_here_greedy_cons. apply negb_true_iff in H. by rewrite H.
  - cbn [no_line_terminator] in H. apply andb_prop in H as [Hc H].
    rewrite match_here_greedy_cons. apply negb_true_iff in Hc. rewrite Hc.
    by rewrite (IH d H).
Qed.

(** On [key: value] the pattern of sub-headers captures the key and the
    value. *)
Lemma header_line_match (k v : string) :
  header_key k = true -> header_value v = true ->
  Re.match_here Re.header_re (k +:+ ": " +:+ v) = Some [k; v].
Proof.
  unfold header_key. intros Hk Hv.
  apply andb_prop in Hk as [Hk Hcolon]. apply andb_prop in Hk as [Hk Hlt].
  destruct k as [|c k]; [discriminate|]. clear Hk.
  unfold Re.header_re. revert c Hlt Hcolon.
  induction k as [|d k IH]; intros c Hlt Hcolon.
  - cbn [no_line_terminator] in Hlt. rewrite andb_true_r in Hlt.
    apply negb_true_iff in Hlt.
    change (String c EmptyString +:+ ": " +:+ v)
      with (String c (String ":" (String " " v))).
    rewrite match_here_lazy_cons, Hlt, match_here_lit.
    cbn [Js.strip_prefix]. rewrite !Ascii.eqb_refl.
    by rewrite (greedy_takes_all v Hv).
  - cbn [no_line_terminator no_colon] in Hlt, Hcolon.
    apply andb_prop in Hlt as [Hc Hlt]. apply andb_prop in Hcolon as [_ Hcolon].
    apply negb_true_iff in Hc.
    pose proof (IH d Hlt Hcolon) as Hrest.
    cbn [no_colon] in Hcolon. apply andb_prop in Hcolon as [Hd _].
    apply negb_true_iff in Hd.
    change (String c (String d k) +:+ ": " +:+ v)
      with (String c (String d k +:+ ": " +:+ v)).
    rewrite match_here_lazy_cons, Hc, Hrest.
    change (String d k +:+ ": " +:+ v) with (String d (k +:+ ": " +:+ v)).
    rewrite match_here_lit. cbn [Js.strip_prefix].
    by rewrite Ascii.eqb_sym, Hd.
Qed.

End Lines.

Lemma search_at_start (p : list Re.item) (s : string) (m : list string) :
  Re.match_here p s = Some m -> Re.search p s = Some m.
Proof. intros H. destruct s; cbn [Re.search]; by rewrite H. Qed.

(** X1.  A line [key: value] of a part, with a key without colon, is stored
    in the sub-headers under the lower-cased key, whatever the spelling of
    the key, and does not reach the content: a content line of this shape is
    taken as a sub-header. *)
Theorem sub_header_recorded
    (st : gmap string string * option string) (k v : string) :
  header_key k = true ->
  header_value v = true ->
  part_line st (k +:+ ": " +:+ v) = (<[Js.toLowerCase k := v]> st.1, st.2).
Proof.
  intros Hk Hv. unfold part_line.
  rewrite blank_iff_all_space, all_space_append.
  change (Js.all_space (": " +:+ v)) with false. rewrite andb_false_r.
  by rewrite (search_at_start _ _ _ (header_line_match k v Hk Hv)).
Qed.

Lemma sub_header_recorded_witness :
  part_line (∅, Some "text") "CONTENT-Disposition: form-data"
  = ({[ "content-disposition" := "form-data" ]}, Some "text").
Proof.
  exact (sub_header_recorded (∅, Some "text") "CONTENT-Disposition"
           "form-data" eq_refl eq_refl).
Defined.

Lemma part_line_blank (st : gmap string string * option string)
    (line : string) :
  Js.all_space line = true -> part_line st line = st.
Proof. intros H. unfold part_line. by rewrite blank_iff_all_space, H. Qed.

(** X2.  Blank lines, wherever they stand among the lines of a part, leave
    no trace: the sub-headers and the content are those of the part without
    them, so a blank line inside a content is lost. *)
Theorem blank_lines_dropped
    (before after : list string) (blank : string)
    (st : gmap string string * option string) :
  Js.all_space blank = true ->
  fold_left part_line (before ++ blank :: after) st
  = fold_left part_line (before ++ after) st.
Proof.
  intros H. rewrite !fold_left_app. cbn [fold_left].
  by rewrite (part_line_blank _ blank H).
Qed.

Lemma blank_lines_dropped_witness :
  fold_left part_line ["first"; "  "; "second"] (∅, None)
  = (∅, Some ("first" +:+ crlf +:+ "second")).
Proof.
  rewrite (blank_lines_dropped ["first"] ["second"] "  " (∅, None) eq_refl).
  reflexivity.
Defined.

Lemma part_line_content (st : gmap string string * option string)
    (line : string) :
  content_line line = true ->
  part_line st line =
  (st.1, Some match st.2 with
              | None => line
              | Some content => content +:+ crlf +:+ line
              end).
Proof.
  unfold content_line, part_line. intros [Hblank Hre]%andb_prop.
  rewrite blank_iff_all_space. apply negb_true_iff in Hblank. rewrite Hblank.
  destruct (Re.search Re.header_re line); [discriminate|].
  by destruct st.2.
Qed.

Lemma content_lines_after (lines : list string) (h : gmap string string)
    (content : string) :
  Forall (fun line => content_line line = true) lines ->
  fold_left part_line lines (h, Some content)
  = (h, Some (Js.join crlf (content :: lines))).
Proof.
  intros H. revert content. induction H as [|line lines Hline _ IH];
    intros content; [reflexivity|].
  cbn [fold_left]. rewrite (part_line_content _ line Hline). cbn [fst snd].
  rewrite IH. destruct lines; [reflexivity|].
  cbn [Js.join]. by rewrite !append_assoc.
Qed.

(** X3.  The content of a part is its content lines, that is, the lines
    that are not blank and do not have the shape of a sub-header, joined by
    CRLF in their order; sub-headers that were read before are kept. *)
Theorem content_lines_joined
    (line : string) (lines : list string) (h : gmap string string) :
  Forall (fun l => content_line l = true) (line :: lines) ->
  fold_left part_line (line :: lines) (h, None)
  = (h, Some (Js.join crlf (line :: lines))).
Proof.
  intros H. apply Forall_cons_1 in H as [Hline Hlines]. cbn [fold_left].
  rewrite (part_line_content _ line Hline). cbn [fst snd].
  by apply content_lines_after.
Qed.

Lemma content_lines_joined_witness :
  (part_fields ("< ./a.txt" +:+ crlf +:+ "second line")).2
  = Some ("< ./a.txt" +:+ crlf +:+ "second line").
Proof.
  change (part_fields ("< ./a.txt" +:+ crlf +:+ "second line"))
    with (fold_left part_line ["< ./a.txt"; "second line"] (∅, None)).
  by rewrite (content_lines_joined "< ./a.txt" ["second line"] ∅
                ltac:(repeat constructor)).
Defined.

(** ** Fields of the form *)

(** X4.  When a part has a content and [buildFormData] returns, the form is
    the given one with one field added at its end: a text field with the
    content, or a file field for a path that is the resolved second token of
    the content and exists.  Earlier fields are kept as they are, and no file
    field is made for a path that does not exist. *)
Theorem buildFormData_appends_one
    (w : World) (baseDir : string) (formData formData' : FormData)
    (part : string) (headers : gmap string string) (content : string) :
  part_fields part = (headers, Some content) ->
  buildFormData w baseDir formData part = Return formData' ->
  exists field,
    formData' = formData ++ [field]
    /\ (ff_value field = FieldText content
        \/ exists filePath,
             Js.split " " content !! 1%nat = Some filePath
             /\ ff_value field = FieldFile (path_resolve w baseDir filePath)
             /\ existsSync w (path_resolve w baseDir filePath) = true).
Proof.
  intros Hfields. unfold buildFormData. rewrite Hfields.
  destruct (truthy_value (disposition_param Re.name_re _)) as [name|];
    [|discriminate].
  destruct (truthy_value (disposition_param Re.filename_re _)) as [filename|].
  - cbn [truthy_value]. destruct (Js.truthy content).
    + unfold second_token.
      destruct (Js.split " " content !! 1%nat) as [token|] eqn:Htoken;
        [|discriminate].
      cbn [truthy_value]. destruct (Js.truthy token); [|discriminate].
      destruct (existsSync w (path_resolve w baseDir token)) eqn:Hexists;
        [|discriminate].
      cbn [negb]. intros [= <-]. eexists. split; [reflexivity|].
      right. by exists token.
    + intros [= <-]. eexists. split; [reflexivity|]. by left.
  - intros [= <-]. eexists. split; [reflexivity|]. by left.
Qed.

Lemma buildFormData_appends_one_witness :
  exists field,
    buildFormData Example.files_world "/work" Example.built_form
                  (Example.file_part "< ./a.txt")
    = Return (Example.built_form ++ [field])
    /\ ff_value field = FieldFile "/work/a.txt".
Proof.
  destruct (buildFormData_appends_one Example.files_world "/work"
              Example.built_form
              (Example.built_form ++
                 [mkFormField "upload" (FieldFile "/work/a.txt")
                    (mkFormOptions (Some "a.txt") (Some "text/plain"))])
              (Example.file_part "< ./a.txt")
              (part_fields (Example.file_part "< ./a.txt")).1
              "< ./a.txt" eq_refl eq_refl)
    as (field & Hform & _).
  apply app_inv_head in Hform. injection Hform as <-.
  eexists. split; reflexivity.
Defined.

(** ** Failures of body construction *)

Lemma fold_add_part_throw (w : World) (baseDir : string)
    (pieces : list string) (t : Thrown) :
  fold_left (add_part w baseDir) pieces (Throw t) = Throw t.
Proof. induction pieces as [|piece pieces IH]; [reflexivity|exact IH]. Qed.

Lemma buildFormData_without_disposition (w : World) (baseDir : string)
    (formData : FormData) (part : string) :
  (part_fields part).1 !! "content-disposition" = None ->
  buildFormData w baseDir formData part
  = Throw (newError "Name not found in Content-Disposition header.").
Proof.
  intros H. unfold buildFormData.
  destruct (part_fields part) as [headers content]. cbn [fst] in H.
  by rewrite H.
Qed.

(** X5.  In a multipart request, a piece of the body that is neither blank
    nor [--] and has no Content-Disposition sub-header makes body
    construction fail, whatever the other pieces are: the pieces before it
    fail first or it fails for its missing name.  The piece left by a line
    break after the closing delimiter is such a piece. *)
Theorem piece_without_disposition_fails
    (w : World) (baseDir : string) (request : HttpRequest)
    (contentType : string) (boundaryMatch : list string) (text : string)
    (before after : list string) (piece : string) :
  let source := "--" +:+ Js.trim (group 1 boundaryMatch) in
  contentTypeOf (rq_headers request) = Some contentType ->
  Js.includes "application/json" contentType = false ->
  Js.includes "multipart/form-data" contentType = true ->
  Re.search Re.boundary_re contentType = Some boundaryMatch ->
  literal_source source = true ->
  rq_body request = JsString text ->
  Js.split source text = before ++ piece :: after ->
  skipped piece = false ->
  (part_fields piece).1 !! "content-disposition" = None ->
  exists t,
    requestConfig w baseDir request = Throw t
    /\ (fold_left (add_part w baseDir) before (Return []) = Throw t
        \/ t = newError "Name not found in Content-Disposition header.").
Proof.
  intros source Hct Hjson Hmultipart Hboundary Hliteral Hbody Hsplit Hskip Hcd.
  rewrite (requestConfig_multipart w baseDir request contentType
             boundaryMatch text Hct Hjson Hmultipart Hboundary Hliteral Hbody).
  fold source. rewrite Hsplit, fold_left_app. cbn [fold_left].
  destruct (fold_left (add_part w baseDir) before (Return [])) as [form|t].
  - unfold add_part at 2. cbn [rbind]. unfold skipped in Hskip.
    rewrite Hskip, (buildFormData_without_disposition _ _ _ _ Hcd).
    rewrite fold_add_part_throw. eexists. split; [reflexivity|by right].
  - cbn [add_part rbind]. rewrite fold_add_part_throw.
    exists t. split; [reflexivity|by left].
Qed.

Lemma piece_without_disposition_fails_witness :
  requestConfig Example.files_world "/work" Example.upload_with_line_break
  = Throw (newError "Name not found in Content-Disposition header.").
Proof.
  destruct (piece_without_disposition_fails Example.files_world "/work"
              Example.upload_with_line_break
              "multipart/form-data; boundary=X" ["X"]
              Example.closed_with_line_break
              [EmptyString; Example.text_part] [] ("--" +:+ crlf)
              eq_refl eq_refl eq_refl eq_refl eq_refl eq_refl
              eq_refl eq_refl eq_refl)
    as (t & -> & [Hbefore| ->]); [|reflexivity].
  vm_compute in Hbefore. discriminate Hbefore.
Defined.

(** X6.  A multipart content type without a boundary parameter: [execute]
    makes the probe and no dispatch, and raises a RequestError with the
    boundary-not-found message, whatever the body is. *)
Theorem missing_boundary_raises
    (w : World) (baseDir : string) (request : HttpRequest)
    (calls : list FetchCall) (contentType : string) :
  let p := applyVariables w request in
  let url := rq_url p in
  url_parses w url = true ->
  probe_times_out w calls url = false ->
  contentTypeOf (rq_headers p) = Some contentType ->
  Js.includes "application/json" contentType = false ->
  Js.includes "multipart/form-data" contentType = true ->
  Re.search Re.boundary_re contentType = None ->
  execute w baseDir request calls =
  (Throw (newRequestError
            ("Request to " +:+ url +:+
             " failed: Boundary not found in Content-Type header.")),
   calls ++ [probe url]).
Proof.
  intros p url Hurl Hprobe Hct Hjson Hmultipart Hboundary.
  rewrite execute_steps. fold p. fold url. rewrite Hurl, Hprobe.
  rewrite main_phase_eq.
  assert (requestConfig w baseDir p
          = Throw (newError "Boundary not found in Content-Type header."))
    as ->; [|reflexivity].
  unfold requestConfig, parseFormData. rewrite Hct. cbn [truthy_value].
  rewrite (includes_nonempty "multipart/form-data" contentType eq_refl
             Hmultipart).
  by rewrite Hjson, Hmultipart, Hboundary.
Qed.

Lemma missing_boundary_raises_witness :
  execute Example.plain_world "/work" Example.upload_without_boundary []
  = (Throw (newRequestError
              "Request to https://example.test/upload failed: Boundary not found in Content-Type header."),
     [probe "https://example.test/upload"]).
Proof.
  exact (missing_boundary_raises Example.plain_world "/work"
           Example.upload_without_boundary [] "multipart/form-data"
           eq_refl eq_refl eq_refl eq_refl eq_refl eq_refl).
Defined.

(** X7.  Body construction can fail, and can change the headers, only on
    the multipart branch: when [requestConfig] throws or gives a form, the
    content type includes [multipart/form-data] and not [application/json];
    in every other case it returns the headers of the request as they
    are. *)
Theorem only_multipart_fails_or_changes_headers
    (w : World) (baseDir : string) (request : HttpRequest) :
  let multipart :=
    exists contentType,
      contentTypeOf (rq_headers request) = Some contentType
      /\ Js.includes "multipart/form-data" contentType = true
      /\ Js.includes "application/json" contentType = false in
  (forall t, requestConfig w baseDir request = Throw t -> multipart)
  /\ (forall sent payload,
        requestConfig w baseDir request = Return (sent, payload) ->
        (exists form, payload = PayloadForm form) /\ multipart
        \/ sent = rq_headers request
           /\ (payload = PayloadValue (rq_body request)
               \/ payload = PayloadStringified (rq_body request))).
Proof.
  intros multipart. unfold requestConfig.
  destruct (contentTypeOf (rq_headers request)) as [contentType|] eqn:Hct;
    cbn [truthy_value].
  2: { split; [discriminate|]. intros sent payload [= <- <-]. right. eauto. }
  destruct (Js.truthy contentType).
  2: { split; [discriminate|]. intros sent payload [= <- <-]. right. eauto. }
  destruct (Js.includes "application/json" contentType) eqn:Hjson.
  { split; [discriminate|]. intros sent payload [= <- <-]. right.
    split; [reflexivity|]. destruct (rq_body request); cbn; eauto. }
  destruct (Js.includes "multipart/form-data" contentType) eqn:Hmultipart.
  2: { split; [discriminate|]. intros sent payload [= <- <-]. right. eauto. }
  assert multipart as Hm by (exists contentType; eauto).
  split; [done|]. intros sent payload H. left. split; [|done].
  destruct (parseFormData w baseDir (rq_headers request) (rq_body request))
    as [form|t]; [|discriminate]. cbn [rbind] in H. injection H as <- <-.
  by exists form.
Qed.

Lemma only_multipart_fails_or_changes_headers_witness :
  exists contentType,
    contentTypeOf (rq_headers (Example.upload "content-type" "< ./b.txt"))
      = Some contentType
    /\ Js.includes "multipart/form-data" contentType = true
    /\ Js.includes "application/json" contentType = false.
Proof.
  destruct (only_multipart_fails_or_changes_headers Example.files_world
              "/work" (Example.upload "content-type" "< ./b.txt"))
    as [H _].
  apply (H (newError "./b.txt is not found.")). reflexivity.
Defined.

(** ** What [execute] raises *)






(** ** Substitution *)

(** X9.  Substitution keeps the keys of the headers: the request that is
    executed has a header under a key exactly when the given request has
    one, so a placeholder in a key is not replaced and no header is added
    or removed. *)
Theorem applyVariables_keeps_header_keys (w : World) (request : HttpRequest) :
  dom (rq_headers (applyVariables w request)) = dom (rq_headers request)
  /\ forall k, rq_headers (applyVariables w request) !! k = None
               <-> rq_headers request !! k = None.
Proof.
  split; [apply dom_fmap_L|].
  intros k. cbn [applyVariables rq_headers]. rewrite lookup_fmap.
  by destruct (rq_headers request !! k).
Qed.

(** ** Replacing twice

    The replacement of the model is idempotent for values that bring no
    placeholder with them. *)

Section Replacement.

Variable variables : gmap string string.

Lemma placeholder_name_inv (s name : string) :
  placeholder_name s = Some name ->
  exists rest, s = name +:+ String "}" rest.
Proof.
  revert name. induction s as [|c s IH]; intros name; [discriminate|].
  cbn [placeholder_name].
  destruct (Ascii.eqb c "}") eqn:Hc.
  - apply Ascii.eqb_eq in Hc as ->. intros [= <-]. by exists s.
  - destruct (placeholder_name s) as [name'|]; [|discriminate].
    intros [= <-]. destruct (IH name' eq_refl) as (rest & ->). by exists rest.
Qed.

Lemma placeholder_name_complete (name rest : string) :
  occurs "}" name = false ->
  placeholder_name (name +:+ String "}" rest) = Some name.
Proof.
  induction name as [|c name IH]; [reflexivity|].
  cbn [occurs]. intros [Hc Hname]%orb_false_elim.
  change (String c name +:+ String "}" rest)
    with (String c (name +:+ String "}" rest)).
  cbn [placeholder_name]. rewrite Ascii.eqb_sym, Hc, (IH Hname). reflexivity.
Qed.

Lemma placeholder_name_closed (s name : string) :
  placeholder_name s = Some name -> occurs "}" name = false.
Proof.
  revert name. induction s as [|c s IH]; intros name; [discriminate|].
  cbn [placeholder_name].
  destruct (Ascii.eqb c "}") eqn:Hc; [by intros [= <-]|].
  destruct (placeholder_name s) as [name'|]; [|discriminate].
  intros [= <-]. cbn [occurs]. by rewrite Ascii.eqb_sym, Hc, (IH name' eq_refl).
Qed.

Lemma replace_go_skip (name rest : string) (k : nat) :
  replace_go variables (Js.length name + k) (name +:+ rest)
  = replace_go variables k rest.
Proof.
  induction name as [|c name IH]; [reflexivity|].
  change (String c name +:+ rest) with (String c (name +:+ rest)).
  cbn [Js.length Nat.add replace_go]. exact IH.
Qed.

(** A placeholder of a bound name is replaced by its value. *)
Lemma replace_go_bound (name value rest : string) :
  occurs "}" name = false ->
  variables !! name = Some value ->
  replace_go variables O (String "$" (String "{" (name +:+ String "}" rest)))
  = value +:+ replace_go variables O rest.
Proof.
  intros Hname Hvalue. cbn [replace_go Js.strip_prefix].
  rewrite !Ascii.eqb_refl. cbn [mbind option_bind].
  rewrite (placeholder_name_complete name rest Hname), Hvalue.
  f_equal.
  replace (Js.length name + 2)%nat with (S (Js.length name + 1)) by lia.
  cbn [replace_go]. rewrite replace_go_skip. reflexivity.
Qed.

(** The two cases of a step. *)
Lemma replace_go_step (c : ascii) (s : string) :
  (exists name value rest,
     String c s = String "$" (String "{" (name +:+ String "}" rest))
     /\ occurs "}" name = false
     /\ variables !! name = Some value)
  \/ ((forall name rest,
         String c s = String "$" (String "{" (name +:+ String "}" rest)) ->
         occurs "}" name = false ->
         variables !! name = None)
      /\ replace_go variables O (String c s)
         = String c (replace_go variables O s)).
Proof.
  cbn [replace_go].
  destruct (Js.strip_prefix "${" (String c s) ≫= placeholder_name)
    as [name|] eqn:Hname.
  - apply bind_Some in Hname as (t & Ht & Hname).
    apply strip_prefix_append in Ht.
    pose proof (placeholder_name_closed _ _ Hname) as Hclosed.
    apply placeholder_name_inv in Hname as (rest & ->).
    destruct (variables !! name) as [value|] eqn:Hvalue.
    + left. exists name, value, rest. by rewrite Ht.
    + right. split; [|reflexivity].
      intros name' rest' H Hclosed'. rewrite Ht in H.
      change ("${" +:+ ?x) with (String "$" (String "{" x)) in H.
      injection H as H.
      apply (f_equal placeholder_name) in H.
      rewrite !placeholder_name_complete in H by assumption.
      by injection H as <-.
  - right. split; [|reflexivity].
    intros name rest H Hclosed. rewrite H in Hname.
    cbn [Js.strip_prefix] in Hname. rewrite !Ascii.eqb_refl in Hname.
    cbn [mbind option_bind] in Hname.
    by rewrite placeholder_name_complete in Hname.
Qed.

Lemma replace_go_plain (value rest : string) :
  occurs "$" value = false ->
  replace_go variables O (value +:+ rest)
  = value +:+ replace_go variables O rest.
Proof.
  induction value as [|c value IH]; [reflexivity|].
  cbn [occurs]. intros [Hc Hvalue]%orb_false_elim.
  change (String c value +:+ ?x) with (String c (value +:+ x)).
  cbn [replace_go Js.strip_prefix]. rewrite Hc. cbn [mbind option_bind].
  by rewrite (IH Hvalue).
Qed.

Hypothesis Hplain : plain_values variables.

Lemma replace_go_reflects (pattern : string) :
  (forall name value c rest,
     variables !! name = Some value -> value = String c rest ->
     occurs c pattern = false) ->
  forall s rest,
    replace_go variables O s = pattern +:+ rest ->
    exists rest', s = pattern +:+ rest'.
Proof.
  induction pattern as [|a pattern IH]; intros Hfirst s rest H;
    [by exists s|].
  destruct s as [|c s]; [discriminate|].
  destruct (replace_go_step c s)
    as [(name & value & rest0 & Hs & Hclosed & Hvalue)|[_ Hstep]].
  - rewrite Hs, (replace_go_bound _ _ _ Hclosed Hvalue) in H.
    destruct (Hplain _ _ Hvalue) as (_ & c0 & rest1 & -> & _).
    injection H as -> _.
    specialize (Hfirst _ _ _ _ Hvalue eq_refl). cbn [occurs] in Hfirst.
    by rewrite Ascii.eqb_refl in Hfirst.
  - rewrite Hstep in H. injection H as -> H.
    destruct (IH (fun name value c rest Hv Hc =>
                    proj2 (orb_false_elim _ _ (Hfirst name value c rest Hv Hc)))
                 s rest H)
      as (rest' & ->).
    by exists rest'.
Qed.

Lemma replace_go_idempotent_upto (n : nat) (s : string) :
  (Js.length s <= n)%nat ->
  replace_go variables O (replace_go variables O s)
  = replace_go variables O s.
Proof.
  revert s. induction n as [|n IH]; intros s Hn.
  { destruct s; [reflexivity|cbn in Hn; lia]. }
  destruct s as [|c s]; [reflexivity|].
  destruct (replace_go_step c s)
    as [(name & value & rest & Hs & Hclosed & Hvalue)|[Hfree Hstep]].
  - rewrite Hs, (replace_go_bound _ _ _ Hclosed Hvalue).
    destruct (Hplain _ _ Hvalue) as (Hdollar & _).
    rewrite (replace_go_plain _ _ Hdollar). f_equal. apply IH.
    apply (f_equal Js.length) in Hs. cbn [Js.length] in Hs, Hn.
    rewrite length_append in Hs. cbn [Js.length] in Hs. lia.
  - rewrite Hstep.
    destruct (replace_go_step c (replace_go variables O s))
      as [(name & value & rest & Hs & Hclosed & Hvalue)|[_ Hstep']].
    + injection Hs as -> Hs.
      destruct (replace_go_reflects (String "{" (name +:+ String "}" EmptyString)))
        with (s := s) (rest := rest) as (rest' & Hs').
      * intros name' value' c rest0 Hv ->.
        destruct (Hplain _ _ Hv) as (_ & c1 & rest1 & [= <- <-] & H).
        apply H. by exists value.
      * rewrite Hs. change (String "{" ?x +:+ rest) with (String "{" (x +:+ rest)).
        by rewrite append_assoc.
      * change (String "{" ?x +:+ rest') with (String "{" (x +:+ rest')) in Hs'.
        rewrite append_assoc in Hs'. cbn in Hs'.
        rewrite (Hfree name rest') in Hvalue; [discriminate| |assumption].
        by rewrite Hs'.
    + rewrite Hstep'. f_equal. apply IH. cbn [Js.length] in Hn. lia.
Qed.

Lemma replaceVariables_model_idempotent (s : string) :
  replaceVariables_model variables (replaceVariables_model variables s)
  = replaceVariables_model variables s.
Proof. apply (replace_go_idempotent_upto (Js.length s)). lia. Qed.

End Replacement.

Lemma item_values_plain :
  plain_values {[ "host" := "example.test"; "id" := "7" ]}.
Proof.
  intros name value Hvalue.
  assert (Hkeys : forall name' : string,
            is_Some (({[ "host" := "example.test"; "id" := "7" ]}
                        : gmap string string) !! name') ->
            name' = "host" \/ name' = "id").
  { intros name' [v Hv].
    apply lookup_insert_Some in Hv as [[<- _]|[_ Hv]]; [by left|].
    apply lookup_singleton_Some in Hv as [<- _]. by right. }
  apply lookup_insert_Some in Hvalue as [[_ <-]|[_ Hvalue]].
  - split; [reflexivity|]. eexists _, _. split; [reflexivity|].
    intros name' [->| ->]%Hkeys; reflexivity.
  - apply lookup_singleton_Some in Hvalue as [_ <-].
    split; [reflexivity|]. eexists _, _. split; [reflexivity|].
    intros name' [->| ->]%Hkeys; reflexivity.
Qed.

(** X10.  When replacing variables twice is the same as replacing them once
    on every text, as it is for variables whose values bring no placeholder
    with them, [applyVariables] applied twice is [applyVariables] applied
    once. *)
Theorem applyVariables_idempotent (w : World) (request : HttpRequest) :
  (forall s, replaceVariables w (replaceVariables w s) = replaceVariables w s) ->
  applyVariables w (applyVariables w request) = applyVariables w request.
Proof.
  intros H. unfold applyVariables. cbn [rq_name rq_method rq_url rq_headers
                                        rq_body].
  f_equal.
  - apply H.
  - rewrite <- map_fmap_compose. apply map_fmap_ext. intros k s _. apply H.
  - destruct (rq_body request); try reflexivity. by rewrite H.
Qed.

Lemma applyVariables_idempotent_witness :
  rq_url (applyVariables Example.item_world Example.post_item)
    = "https://example.test/items"
  /\ rq_headers (applyVariables Example.item_world Example.post_item)
       !! "X-Item" = Some "7"
  /\ applyVariables Example.item_world
       (applyVariables Example.item_world Example.post_item)
     = applyVariables Example.item_world Example.post_item.
Proof.
  split; [reflexivity|]. split; [vm_compute; reflexivity|].
  apply (applyVariables_idempotent Example.item_world Example.post_item).
  apply replaceVariables_model_idempotent. exact item_values_plain.
Defined.

(** X21.  [execute] returns a Response only after the dispatch: the URL
    was accepted, the probe did not time out, the body was built and the
    calls made are the probe and the dispatch.  The status and the headers
    of the Response are those of the answer to the dispatch, or of the
    response attached to the error with which the dispatch or the reading of
    the body of its answer failed.  The one way past the dispatch is an
    error of body construction that carries a response, which the errors
    that [parseFormData] and [buildFormData] make themselves do not. *)
Theorem response_only_after_dispatch
    (w : World) (baseDir : string) (request : HttpRequest)
    (calls calls' : list FetchCall) (r : HttpResponse) :
  let p := applyVariables w request in
  let url := rq_url p in
  execute w baseDir request calls = (Return r, calls') ->
  url_parses w url = true
  /\ probe_times_out w calls url = false
  /\ exists answer,
       status r = fr_status answer
       /\ headers r = fromEntries (fr_entries answer)
       /\ ((exists config,
              requestConfig w baseDir p = Return config
              /\ calls' = calls ++ [probe url; dispatch p config]
              /\ let outcome :=
                   net w (calls ++ [probe url]) (dispatch p config) in
                 outcome = Return answer
                 \/ exists error,
                      attached_response error = Some answer
                      /\ (outcome = Throw error
                          \/ exists response,
                               outcome = Return response
                               /\ fr_text response = TextFails error))
           \/ (exists error,
                 requestConfig w baseDir p = Throw error
                 /\ attached_response error = Some answer
                 /\ calls' = calls ++ [probe url])).
Proof.
  intros p url. rewrite execute_steps. fold p. fold url.
  destruct (url_parses w url); [|discriminate].
  destruct (probe_times_out w calls url); [discriminate|].
  rewrite main_phase_eq. intros H. do 2 (split; [reflexivity|]).
  assert (Hhandler : forall error log,
            handleRequestError error p log = (Return r, calls') ->
            exists answer,
              status r = fr_status answer
              /\ headers r = fromEntries (fr_entries answer)
              /\ attached_response error = Some answer /\ calls' = log).
  { intros error log. rewrite handleRequestError_eq.
    destruct (is_request_timeout error); [discriminate|].
    destruct (attached_response error) as [answer|]; [|discriminate].
    destruct (fr_text answer); [|discriminate].
    intros [= <- <-]. by exists answer. }
  destruct (requestConfig w baseDir p) as [config|error] eqn:Hconfig.
  - cbv zeta in H.
    destruct (net w (calls ++ [probe url]) (dispatch p config))
      as [response|error] eqn:Hnet.
    + destruct (fr_text response) as [s|error] eqn:Htext.
      * injection H as <- <-. exists response.
        do 2 (split; [reflexivity|]). left. exists config.
        split; [reflexivity|]. split; [by rewrite <- app_assoc|].
        cbv zeta. rewrite Hnet. by left.
      * apply Hhandler in H as (answer & Hs & Hh & Ha & ->).
        exists answer. do 2 (split; [assumption|]). left. exists config.
        split; [reflexivity|]. split; [by rewrite <- app_assoc|].
        cbv zeta. rewrite Hnet. right. exists error.
        split; [assumption|]. right. by exists response.
    + apply Hhandler in H as (answer & Hs & Hh & Ha & ->).
      exists answer. do 2 (split; [assumption|]). left. exists config.
      split; [reflexivity|]. split; [by rewrite <- app_assoc|].
      cbv zeta. rewrite Hnet. right. exists error.
      split; [assumption|]. by left.
  - apply Hhandler in H as (answer & Hs & Hh & Ha & ->).
    exists answer. do 2 (split; [assumption|]). right. by exists error.
Qed.

Lemma response_only_after_dispatch_witness :
  url_parses Example.not_found_world "https://example.test/ping" = true
  /\ probe_times_out Example.not_found_world [] "https://example.test/ping"
     = false.
Proof.
  destruct (response_only_after_dispatch Example.not_found_world "/work"
              Example.ping []
              [probe "https://example.test/ping";
               dispatch Example.ping (∅, PayloadValue JsUndefined)]
              {| status := 404;
                 headers := fromEntries [("content-type", "application/json")];
                 data := JsString "{ }" |}
              eq_refl)
    as (Hurl & Hprobe & _).
  by split.
Defined.

(** * The logger *)

Section LoggerFacts.

Import Logger.

Variable level_name : LogLevel -> string.

Lemma log_without_channel message level params st :
  outputChannel st = None -> log level_name message level params st = st.
Proof. intros H. unfold log. by rewrite H. Qed.

Lemma log_results_without_channel index rs st :
  outputChannel st = None -> log_results level_name index rs st = st.
Proof.
  intros H. revert index. induction rs as [|r rs IH]; intros index;
    [reflexivity|].
  cbn [log_results]. unfold logPlain. rewrite log_without_channel by done.
  apply IH.
Qed.

Lemma shown_appendLine channel line st :
  shown (appendLine channel line st) !!! channel
  = (shown st !!! channel) ++ [line].
Proof. cbn [appendLine shown]. by rewrite lookup_total_insert_eq. Qed.

Lemma shown_appendLine_other channel other line st :
  other <> channel ->
  shown (appendLine channel line st) !! other = shown st !! other.
Proof. intros H. cbn [appendLine shown]. by rewrite lookup_insert_ne. Qed.

End LoggerFacts.

(** X11.  As long as no output channel was given to the logger, nothing is
    logged: every logging function leaves the logger as it is, and none
    fails. *)
Theorem silent_without_channel
    (level_name : Logger.LogLevel -> string) (st : Logger.State) :
  Logger.outputChannel st = None ->
  (forall message level params,
     Logger.log level_name message level params st = st)
  /\ (forall result, Logger.logTestResult level_name result st = st)
  /\ (forall summary, Logger.logTestSummary level_name summary st = st).
Proof.
  intros H. split; [|split].
  - intros. by apply log_without_channel.
  - intros result.
    unfold Logger.logTestResult, Logger.logInfo, Logger.logWarning,
      Logger.logError.
    destruct (Logger.tr_passed result); [by apply log_without_channel|].
    rewrite (log_without_channel level_name _ Logger.WARNING [] st H).
    destruct (Logger.error_text result); [|done].
    by apply log_without_channel.
  - intros summary. unfold Logger.logTestSummary, Logger.logPlain.
    rewrite !(log_without_channel level_name _ Logger.PLAIN [] st H).
    by apply log_results_without_channel.
Qed.

Lemma silent_without_channel_witness :
  Logger.logTestSummary Logger.member_name Logger.two_results Logger.start
  = Logger.start.
Proof.
  destruct (silent_without_channel Logger.member_name Logger.start eq_refl)
    as (_ & _ & H).
  apply H.
Defined.

(** X12.  Messages of level VERBOSE are shown only while the verbose flag is
    set; for every other level the flag makes no difference to what is
    shown. *)
Theorem verbose_gate
    (level_name : Logger.LogLevel -> string) (st : Logger.State)
    (channel : nat) (message : string) (params : list string) :
  Logger.outputChannel st = Some channel ->
  (Logger.verbose st = false ->
   Logger.logVerbose level_name message params st = st)
  /\ (Logger.verbose st = true ->
      exists line,
        Logger.shown (Logger.logVerbose level_name message params st)
          !!! channel
        = (Logger.shown st !!! channel) ++ [line])
  /\ (forall level flag,
        level <> Logger.VERBOSE ->
        Logger.shown (Logger.log level_name message level params
                        (Logger.setVerbose flag st))
        = Logger.shown (Logger.log level_name message level params st)).
Proof.
  intros H. split; [|split].
  - intros Hv. unfold Logger.logVerbose, Logger.log. by rewrite H, Hv.
  - intros Hv. unfold Logger.logVerbose, Logger.log. rewrite H, Hv.
    eexists. apply shown_appendLine.
  - intros level flag Hlevel. unfold Logger.log.
    cbn [Logger.setVerbose Logger.outputChannel]. rewrite H.
    by destruct level.
Qed.

Lemma verbose_gate_witness :
  Logger.logVerbose Logger.member_name "Full response:" [] Logger.ready
  = Logger.ready.
Proof.
  destruct (verbose_gate Logger.member_name Logger.ready 0 "Full response:"
              [] eq_refl) as (H & _).
  by apply H.
Defined.

Section SummaryFacts.

Import Logger.

Variable level_name : LogLevel -> string.

Lemma logPlain_with_channel channel message st :
  outputChannel st = Some channel ->
  logPlain level_name message [] st = appendLine channel message st.
Proof. intros H. unfold logPlain, log. by rewrite H. Qed.

Lemma log_keeps_channel message level params st :
  outputChannel (log level_name message level params st) = outputChannel st.
Proof.
  unfold log. destruct (outputChannel st) eqn:H; [|done].
  destruct level; try done. by destruct (verbose st).
Qed.

Lemma log_results_shown channel rs index st :
  outputChannel st = Some channel ->
  let st' := log_results level_name index rs st in
  shown st' !!! channel
    = (shown st !!! channel)
      ++ imap (fun i r => result_line (index + i) r) rs
  /\ (forall other, other <> channel -> shown st' !! other = shown st !! other)
  /\ verbose st' = verbose st
  /\ outputChannel st' = Some channel.
Proof.
  revert index st. induction rs as [|r rs IH]; intros index st H.
  - cbn. rewrite app_nil_r. eauto.
  - cbn [log_results]. rewrite (logPlain_with_channel channel) by done.
    destruct (IH (S index) (appendLine channel (result_line index r) st) H)
      as (IH1 & IH2 & IH3 & IH4).
    cbv zeta. rewrite IH1, IH3, IH4, shown_appendLine, <- app_assoc.
    split; [|split; [|done]].
    + cbn [imap app]. rewrite Nat.add_0_r. do 2 f_equal.
      apply imap_ext. intros i x _. cbn. f_equal. lia.
    + intros other Hother. rewrite IH2 by done.
      by apply shown_appendLine_other.
Qed.

Lemma plain_lines_shown channel lines st :
  outputChannel st = Some channel ->
  let st' := fold_left (fun s line => logPlain level_name line [] s) lines st in
  shown st' !!! channel = (shown st !!! channel) ++ lines
  /\ (forall other, other <> channel -> shown st' !! other = shown st !! other)
  /\ verbose st' = verbose st
  /\ outputChannel st' = Some channel.
Proof.
  revert st. induction lines as [|line lines IH]; intros st H.
  - cbn. rewrite app_nil_r. eauto.
  - cbn [fold_left]. rewrite (logPlain_with_channel channel) by done.
    destruct (IH (appendLine channel line st) H) as (IH1 & IH2 & IH3 & IH4).
    cbv zeta. rewrite IH1, IH3, IH4, shown_appendLine, <- app_assoc.
    split; [done|]. split; [|done].
    intros other Hother. rewrite IH2 by done.
    by apply shown_appendLine_other.
Qed.

End SummaryFacts.

(** X13.  Once a channel was given, the summary is shown whatever the
    verbose flag, on that channel only: six lines of heading and counts, one
    line with one mark per result, then one line per result in the order of
    the results, numbered from 1.  The flag and the channel of the logger
    stay as they are. *)
Theorem summary_lines
    (level_name : Logger.LogLevel -> string) (st : Logger.State)
    (channel : nat) (summary : Logger.TestSummary) :
  Logger.outputChannel st = Some channel ->
  let st' := Logger.logTestSummary level_name summary st in
  Logger.shown st' !!! channel
    = (Logger.shown st !!! channel)
      ++ [Logger.lf +:+ Logger.repeat_string "=" 50;
          Logger.summary_mark +:+ " Test Summary";
          Logger.repeat_string "=" 50;
          "Total Tests: " +:+ pretty (Logger.totalTests summary);
          "Passed Tests: " +:+ pretty (Logger.passedTests summary);
          "Failed Tests: " +:+ pretty (Logger.failedTests summary);
          Logger.lf +:+ Js.join EmptyString
                          (Logger.result_mark <$> Logger.results summary)]
      ++ imap Logger.result_line (Logger.results summary)
  /\ length (Logger.shown st' !!! channel)
     = (length (Logger.shown st !!! channel) + 7
        + length (Logger.results summary))%nat
  /\ (forall other, other <> channel ->
        Logger.shown st' !! other = Logger.shown st !! other)
  /\ Logger.verbose st' = Logger.verbose st
  /\ Logger.outputChannel st' = Logger.outputChannel st.
Proof.
  intros H st'.
  assert (Logger.shown st' !!! channel
    = (Logger.shown st !!! channel)
      ++ [Logger.lf +:+ Logger.repeat_string "=" 50;
          Logger.summary_mark +:+ " Test Summary";
          Logger.repeat_string "=" 50;
          "Total Tests: " +:+ pretty (Logger.totalTests summary);
          "Passed Tests: " +:+ pretty (Logger.passedTests summary);
          "Failed Tests: " +:+ pretty (Logger.failedTests summary);
          Logger.lf +:+ Js.join EmptyString
                          (Logger.result_mark <$> Logger.results summary)]
      ++ imap Logger.result_line (Logger.results summary)
    /\ (forall other, other <> channel ->
          Logger.shown st' !! other = Logger.shown st !! other)
    /\ Logger.verbose st' = Logger.verbose st
    /\ Logger.outputChannel st' = Some channel) as (H1 & H2 & H3 & H4).
  { change st' with
      (Logger.log_results level_name 0 (Logger.results summary)
         (fold_left (fun s line => Logger.logPlain level_name line [] s)
            [Logger.lf +:+ Logger.repeat_string "=" 50;
             Logger.summary_mark +:+ " Test Summary";
             Logger.repeat_string "=" 50;
             "Total Tests: " +:+ pretty (Logger.totalTests summary);
             "Passed Tests: " +:+ pretty (Logger.passedTests summary);
             "Failed Tests: " +:+ pretty (Logger.failedTests summary);
             Logger.lf +:+ Js.join EmptyString
                             (Logger.result_mark <$> Logger.results summary)]
            st)).
    match goal with
    | |- context [fold_left ?f ?lines st] =>
        destruct (plain_lines_shown level_name channel lines st H)
          as (P1 & P2 & P3 & P4);
        destruct (log_results_shown level_name channel
                    (Logger.results summary) 0 (fold_left f lines st) P4)
          as (R1 & R2 & R3 & R4)
    end.
    cbv zeta in R1, R2, R3, R4. rewrite R1, R3, R4, P1, P3, <- app_assoc.
    split; [done|]. split; [|done].
    intros other Hother. rewrite R2 by done. by apply P2. }
  split; [exact H1|]. split; [|by rewrite H4].
  rewrite H1, !length_app, length_imap. cbn [length]. lia.
Qed.

Lemma summary_lines_witness :
  length (Logger.shown
            (Logger.logTestSummary Logger.member_name Logger.two_results
                                   Logger.ready) !!! 0%nat)
  = 9%nat.
Proof.
  destruct (summary_lines Logger.member_name Logger.ready 0
              Logger.two_results eq_refl) as (_ & H & _).
  exact H.
Defined.

(** X14.  Once a channel was given, a result that passed is reported by one
    line of level INFO and its failure detail, if it has one, is not shown;
    a result that failed is reported by one line of level WARNING, followed
    by one line of level ERROR with the detail exactly when the detail is
    truthy.  A status code that is absent or 0 is left out of the line. *)
Theorem result_report
    (level_name : Logger.LogLevel -> string) (st : Logger.State)
    (channel : nat) (result : Logger.TestResult) :
  Logger.outputChannel st = Some channel ->
  let message :=
    Logger.tr_name result +:+ ": " +:+ Logger.pass_text result +:+ " "
    +:+ match Logger.tr_statusCode result with
        | Some code =>
            if code =? 0 then EmptyString
            else "(Status: " +:+ pretty code +:+ ")"
        | None => EmptyString
        end in
  Logger.shown (Logger.logTestResult level_name result st) !!! channel
  = (Logger.shown st !!! channel)
    ++ (if Logger.tr_passed result
        then ["[" +:+ level_name Logger.INFO +:+ "] " +:+ message]
        else (Logger.warning_mark +:+ " [" +:+ level_name Logger.WARNING
              +:+ "] " +:+ message)
             :: match Logger.tr_error result with
                | Some (Logger.DetailError text)
                | Some (Logger.DetailValue text true) =>
                    [Logger.error_mark +:+ " [" +:+ level_name Logger.ERROR
                     +:+ "] " +:+ text]
                | _ => []
                end).
Proof.
  intros H message.
  unfold Logger.logTestResult, Logger.logInfo, Logger.logWarning,
    Logger.logError.
  fold (Logger.status_text result) in message.
  destruct (Logger.tr_passed result).
  - unfold Logger.log. rewrite H. apply shown_appendLine.
  - unfold Logger.error_text.
    assert (Logger.log level_name
              (Logger.tr_name result +:+ ": " +:+ Logger.pass_text result
               +:+ " " +:+ Logger.status_text result) Logger.WARNING [] st
            = Logger.appendLine channel
                (Logger.warning_mark +:+ " [" +:+ level_name Logger.WARNING
                 +:+ "] " +:+ message) st) as ->.
    { unfold Logger.log. by rewrite H. }
    destruct (Logger.tr_error result) as [[text|text []]|];
      try (rewrite shown_appendLine; reflexivity);
      unfold Logger.log; cbn [Logger.appendLine Logger.outputChannel];
      rewrite H, !shown_appendLine, <- app_assoc; reflexivity.
Qed.

Lemma result_report_witness :
  Logger.shown (Logger.logTestResult Logger.member_name Logger.failed_ping
                                     Logger.ready) !!! 0%nat
  = [Logger.warning_mark +:+ " [WARNING] ping: " +:+ Logger.error_mark
     +:+ " FAIL (Status: 500)";
     Logger.error_mark +:+ " [ERROR] status is 500"].
Proof.
  rewrite (result_report Logger.member_name Logger.ready 0
             Logger.failed_ping eq_refl).
  vm_compute. reflexivity.
Defined.

(** * The controller of the test run *)

(** X15.  Unless the active editor holds a file whose name ends with
    [.http], in lower case, [runHttpTest] does nothing but show one error
    message: no file is written and no terminal is touched. *)
Theorem run_needs_http_file (h : Controller.Host) :
  (forall fileName, Controller.activeEditor h = Some fileName ->
                    Controller.endsWith ".http" fileName = false) ->
  exists message,
    Controller.runHttpTest h = [Controller.ShowErrorMessage message].
Proof.
  intros H. unfold Controller.runHttpTest.
  destruct (Controller.activeEditor h) as [fileName|]; [|eauto].
  rewrite (H fileName eq_refl). eauto.
Qed.

Lemma run_needs_http_file_witness :
  Controller.runHttpTest (Controller.example_host "/work/api.HTTP")
  = [Controller.ShowErrorMessage "The active file is not an .http file."].
Proof.
  destruct (run_needs_http_file (Controller.example_host "/work/api.HTTP"))
    as [message H].
  - intros fileName [= <-]. reflexivity.
  - rewrite H. vm_compute in H. injection H as <-. reflexivity.
Defined.

(** X16.  The object that [runHttpTest] writes goes to [variables.json] in
    the directory of the script; it never has the key
    [auto_fetch_token_data]; under every other key it has the value of the
    current environment when that environment has the key, and the value of
    [$shared] otherwise; with no environment selected it has the values of
    [$shared] only. *)
Theorem exported_variables
    (h : Controller.Host) (path : string) (object : gmap string JsValue) :
  Controller.WriteFile path object ∈ Controller.runHttpTest h ->
  object !! "auto_fetch_token_data" = None
  /\ exists fileName current,
       Controller.activeEditor h = Some fileName
       /\ Controller.getCurrentEnvironment h = Return current
       /\ path = Controller.join h (Controller.dirname h fileName)
                                 "variables.json"
       /\ forall k, k <> "auto_fetch_token_data" ->
            object !! k =
            match
              (if String.eqb (Controller.name current)
                             (Controller.noEnvironmentSelectedName h)
               then None
               else Controller.variablesOf h (Controller.name current) !! k)
            with
            | Some v => Some v
            | None => Controller.variablesOf h "$shared" !! k
            end.
Proof.
  unfold Controller.runHttpTest.
  destruct (Controller.activeEditor h) as [fileName|];
    [|intros [=]%list_elem_of_singleton].
  destruct (Controller.endsWith ".http" fileName);
    [|intros [=]%list_elem_of_singleton]. cbn [negb].
  destruct (Controller.getCurrentEnvironment h) as [current|error];
    [|intros [=]%list_elem_of_singleton].
  intros Hin. apply elem_of_cons in Hin as [[= -> ->]|Hin].
  - unfold Controller.combinedVars, Controller.filterEnvironmentVars.
    split.
    + rewrite lookup_union.
      destruct (negb _); by rewrite ?lookup_delete_eq, ?lookup_empty.
    + exists fileName, current. repeat (split; [done|]).
      intros k Hk. rewrite lookup_union.
      destruct (String.eqb _ _); cbn [negb].
      * rewrite lookup_empty, lookup_delete_ne by done.
        by destruct (Controller.variablesOf h "$shared" !! k).
      * rewrite !lookup_delete_ne by done.
        by destruct (Controller.variablesOf h _ !! k),
                    (Controller.variablesOf h "$shared" !! k).
  - exfalso. destruct (Controller.writeFile h _ _).
    + by apply list_elem_of_singleton in Hin.
    + unfold Controller.startTerminal in Hin.
      destruct (list_find _ _) as [[index t]|];
        repeat (apply elem_of_cons in Hin as [Hin|Hin]; [discriminate|]);
        by apply elem_of_nil in Hin.
Qed.

Lemma exported_variables_witness :
  exists object,
    Controller.WriteFile "/work/variables.json" object
      ∈ Controller.runHttpTest (Controller.example_host "/work/api.http")
    /\ object !! "auto_fetch_token_data" = None
    /\ object !! "token" = Some (JsString "dev")
    /\ object !! "host" = Some (JsString "example.test").
Proof.
  eexists. split; [vm_compute; apply list_elem_of_here|].
  split; [|split; reflexivity].
  refine (proj1 (exported_variables (Controller.example_host "/work/api.http")
                   "/work/variables.json" _ _)).
  vm_compute. apply list_elem_of_here.
Defined.

(** X17.  [runHttpTest] sends a text to a terminal only for a script whose
    name ends with [.http] and only after [variables.json] was written
    without error: the write is the first action, the only write, and every
    text is sent later.  The text is the command of the runner on the quoted
    file name, which is the last action, or [cls], which is sent right
    before the command to a terminal named [HTTP Test] that existed.  A
    terminal is created only after the write, and only when none of that
    name exists. *)
Theorem terminal_after_write (h : Controller.Host) :
  let actions := Controller.runHttpTest h in
  (forall (i : nat) terminal text,
     actions !! i = Some (Controller.SendText terminal text) ->
     exists fileName path object,
       Controller.activeEditor h = Some fileName
       /\ Controller.endsWith ".http" fileName = true
       /\ actions !! 0%nat = Some (Controller.WriteFile path object)
       /\ (0 < i)%nat
       /\ Controller.writeFile h path object = None
       /\ (forall (j : nat) path' object',
             actions !! j = Some (Controller.WriteFile path' object') ->
             j = 0%nat)
       /\ (text = Controller.command fileName /\ actions !! (S i) = None
           \/ text = "cls"
              /\ actions !! (S i)
                 = Some (Controller.SendText terminal
                           (Controller.command fileName))
              /\ exists index,
                   terminal = Controller.Existing index
                   /\ Controller.terminals h !! index = Some "HTTP Test"))
  /\ (forall (i : nat) name,
        actions !! i = Some (Controller.CreateTerminal name) ->
        name = "HTTP Test"
        /\ ("HTTP Test" ∉ Controller.terminals h)
        /\ exists path object,
             actions !! 0%nat = Some (Controller.WriteFile path object)
             /\ (0 < i)%nat
             /\ Controller.writeFile h path object = None).
Proof.
  cbv zeta. unfold Controller.runHttpTest.
  destruct (Controller.activeEditor h) as [fileName|];
    [|split; intros [|[|i]]; discriminate].
  destruct (Controller.endsWith ".http" fileName) eqn:Hends;
    [|split; intros [|[|i]]; discriminate]. cbn [negb].
  destruct (Controller.getCurrentEnvironment h) as [current|error];
    [|split; intros [|[|i]]; discriminate].
  cbv zeta.
  destruct (Controller.writeFile h _ _) as [error|] eqn:Hwrite;
    [split; intros [|[|[|i]]]; discriminate|].
  unfold Controller.startTerminal.
  destruct (list_find _ (Controller.terminals h)) as [[index t]|] eqn:Hfind.
  - apply list_find_Some in Hfind as (Hindex & -> & _). split.
    + intros i terminal text H.
      eexists fileName, _, _. do 2 (split; [done|]).
      split; [reflexivity|].
      assert (Hwrites : forall (j : nat) path' object',
                (Controller.WriteFile
                   (Controller.join h (Controller.dirname h fileName)
                                    "variables.json")
                   (Controller.combinedVars h current)
                 :: [Controller.Show (Controller.Existing index);
                     Controller.SendText (Controller.Existing index) "cls";
                     Controller.SendText (Controller.Existing index)
                       (Controller.command fileName)]) !! j
                = Some (Controller.WriteFile path' object') -> j = 0%nat).
      { intros [|[|[|[|[|j]]]]] ? ?; done. }
      destruct i as [|[|[|[|[|i]]]]]; try discriminate H.
      * injection H as <- <-. split; [lia|]. split; [exact Hwrite|].
        split; [exact Hwrites|]. right. split; [done|]. split; [done|].
        by exists index.
      * injection H as <- <-. split; [lia|]. split; [exact Hwrite|].
        split; [exact Hwrites|]. by left.
    + intros [|[|[|[|[|i]]]]] name H; discriminate H.
  - apply list_find_None in Hfind. split.
    + intros i terminal text H.
      eexists fileName, _, _. do 2 (split; [done|]).
      split; [reflexivity|].
      destruct i as [|[|[|[|[|i]]]]]; try discriminate H.
      injection H as <- <-. split; [lia|]. split; [exact Hwrite|].
      split; [intros [|[|[|[|[|j]]]]] ? ?; done|]. by left.
    + intros i name H.
      destruct i as [|[|[|[|[|i]]]]]; try discriminate H.
      injection H as <-. split; [done|]. split.
      * intros Hin. rewrite Forall_forall in Hfind. by apply (Hfind _ Hin).
      * eexists _, _. split; [reflexivity|]. split; [lia|]. exact Hwrite.
Qed.

Lemma terminal_after_write_witness :
  Controller.runHttpTest (Controller.example_host "/work/api.http") !! 3%nat
  = Some (Controller.SendText (Controller.Existing 1)
            (Controller.command "/work/api.http"))
  /\ exists path object,
       Controller.runHttpTest (Controller.example_host "/work/api.http")
         !! 0%nat
       = Some (Controller.WriteFile path object).
Proof.
  destruct (terminal_after_write (Controller.example_host "/work/api.http"))
    as [H _].
  destruct (H 2%nat (Controller.Existing 1) "cls" eq_refl)
    as (fileName & path & object & Hfile & _ & Hwrite & _ & _ & _
        & [[Htext _]|(_ & Hnext & _)]).
  - discriminate Htext.
  - injection Hfile as <-. split; [exact Hnext|]. by exists path, object.
Defined.

(** * The environment controller *)

Section OneCharacter.

(** Splitting at a separator of one character. *)
Variable c0 : ascii.

Lemma starts_with_char (c : ascii) (s : string) :
  Js.starts_with (String c0 EmptyString) (String c s) = Ascii.eqb c0 c.
Proof.
  unfold Js.starts_with. cbn [Js.strip_prefix].
  by destruct (Ascii.eqb c0 c).
Qed.

Lemma includes_char (c : ascii) (s : string) :
  Js.includes (String c0 EmptyString) (String c s) = Ascii.eqb c0 c || Js.includes (String c0 EmptyString) s.
Proof. cbn [Js.includes]. by rewrite starts_with_char. Qed.

Lemma split_go_without (s cur : string) :
  Js.includes (String c0 EmptyString) s = false ->
  Js.split_go (String c0 EmptyString) 0 cur s = [Js.rev_onto EmptyString cur +:+ s].
Proof.
  revert cur. induction s as [|c s IH]; intros cur Hs.
  - cbn. by rewrite append_empty_r.
  - rewrite includes_char in Hs. apply orb_false_elim in Hs as [Hc Hs].
    cbn [Js.split_go]. rewrite starts_with_char, Hc.
    by rewrite (IH _ Hs), rev_onto_cons, append_assoc.
Qed.

Lemma split_go_first (a t cur : string) :
  Js.includes (String c0 EmptyString) a = false ->
  Js.split_go (String c0 EmptyString) 0 cur (a +:+ (String c0 EmptyString) +:+ t)
  = (Js.rev_onto EmptyString cur +:+ a) :: Js.split_go (String c0 EmptyString) 0 EmptyString t.
Proof.
  revert cur. induction a as [|c a IH]; intros cur Ha.
  - rewrite append_empty_l, append_empty_r.
    rewrite append_cons, append_empty_l. cbn [Js.split_go].
    by rewrite starts_with_char, Ascii.eqb_refl.
  - rewrite includes_char in Ha. apply orb_false_elim in Ha as [Hc Ha].
    rewrite append_cons. cbn [Js.split_go]. rewrite starts_with_char, Hc.
    by rewrite (IH _ Ha), rev_onto_cons, append_assoc.
Qed.

Lemma split_char_first (a t : string) :
  Js.includes (String c0 EmptyString) a = false ->
  Js.split (String c0 EmptyString) (a +:+ (String c0 EmptyString) +:+ t) = a :: Js.split (String c0 EmptyString) t.
Proof. intros Ha. unfold Js.split. by apply (split_go_first a t). Qed.

Lemma split_char_without (s : string) :
  Js.includes (String c0 EmptyString) s = false -> Js.split (String c0 EmptyString) s = [s].
Proof. intros Hs. unfold Js.split. by apply (split_go_without s). Qed.

End OneCharacter.

(** X18.  In a line of the [.env] file the key is the text before the first
    [=] and the value the text between the first and the second [=], both
    without the white space around them: what follows a second [=],
    that sign included, is not part of the value. *)
Theorem value_cut_at_second_equals (k v rest : string) :
  Js.includes "=" k = false ->
  Js.includes "=" v = false ->
  Environment.entry (k +:+ "=" +:+ v) = (Some (Js.trim k), Some (Js.trim v))
  /\ Environment.entry (k +:+ "=" +:+ v +:+ "=" +:+ rest)
     = (Some (Js.trim k), Some (Js.trim v)).
Proof.
  intros Hk Hv. unfold Environment.entry. split.
  - rewrite (split_char_first "=" k v Hk), (split_char_without "=" v Hv).
    reflexivity.
  - rewrite (split_char_first "=" k _ Hk), (split_char_first "=" v _ Hv).
    reflexivity.
Qed.

Lemma value_cut_at_second_equals_witness :
  Environment.entry "CLIENT_SECRET=c2VjcmV0PT0=="
  = (Some "CLIENT_SECRET", Some "c2VjcmV0PT0").
Proof.
  exact (proj2 (value_cut_at_second_equals "CLIENT_SECRET" "c2VjcmV0PT0" "="
                  eq_refl eq_refl)).
Defined.

Lemma read_lines_without_name (idName secretName : JsValue)
    (lines : list string) (found : option string * option string) :
  Forall (fun l => Environment.is_name (Environment.entry l).1 idName = false)
         lines ->
  (fold_left (Environment.read_line idName secretName) lines found).1
  = found.1.
Proof.
  intros H. revert found. induction H as [|l lines Hl _ IH]; intros found;
    [reflexivity|].
  cbn [fold_left]. rewrite IH. unfold Environment.read_line.
  destruct (Environment.entry l) as [key value]. cbn [fst] in *.
  by rewrite Hl.
Qed.

(** X19.  The client id that is read is the value of the last line whose key
    is the configured name, whatever the lines before it gave: when that
    line has no [=], the client id is undefined again. *)
Theorem last_line_decides (idName secretName : JsValue)
    (before after : list string) (line : string)
    (found : option string * option string) :
  Environment.is_name (Environment.entry line).1 idName = true ->
  Forall (fun l => Environment.is_name (Environment.entry l).1 idName = false)
         after ->
  (fold_left (Environment.read_line idName secretName)
             (before ++ line :: after) found).1
  = (Environment.entry line).2.
Proof.
  intros Hline Hafter. rewrite fold_left_app. cbn [fold_left].
  rewrite (read_lines_without_name idName secretName after _ Hafter).
  unfold Environment.read_line.
  destruct (Environment.entry line) as [key value]. cbn [fst snd] in *.
  by rewrite Hline.
Qed.

Lemma last_line_decides_witness :
  (Environment.read_credentials (JsString "CLIENT_ID")
     (JsString "CLIENT_SECRET")
     ("CLIENT_ID=app" +:+ Logger.lf +:+ "CLIENT_ID" +:+ Logger.lf
      +:+ "CLIENT_SECRET=x")).1
  = None.
Proof.
  exact (last_line_decides (JsString "CLIENT_ID") (JsString "CLIENT_SECRET")
           ["CLIENT_ID=app"] ["CLIENT_SECRET=x"] "CLIENT_ID" (None, None)
           eq_refl ltac:(repeat constructor)).
Defined.

(** X20.  In the lookup of the token, a falsy value is final: when the value
    that is looked into is null, 0, false, the empty string or undefined,
    as the value under a missing key is, it is the result whatever keys
    remain. *)
Theorem falsy_stops_lookup
    (inherited : JsValue -> string -> bool) (v : JsValue)
    (path : list string) :
  js_truthy v = false ->
  Environment.getNestedValue inherited v path = Some v
  /\ forall obj key,
       js_truthy obj = true ->
       Environment.property inherited obj key = Some v ->
       Environment.getNestedValue inherited obj (key :: path) = Some v.
Proof.
  intros Hv.
  assert (Environment.getNestedValue inherited v path = Some v) as Hfinal.
  { unfold Environment.getNestedValue. induction path as [|key path IH];
      [reflexivity|].
    cbn [fold_left]. unfold Environment.step at 2. cbn. by rewrite Hv. }
  split; [exact Hfinal|].
  intros obj key Hobj Hproperty. unfold Environment.getNestedValue.
  cbn [fold_left]. unfold Environment.step at 2. cbn.
  by rewrite Hobj, Hproperty.
Qed.

Lemma falsy_stops_lookup_witness :
  Environment.getNestedValue Environment.own_only Environment.token_response
    ["data"; "expires_in"; "value"]
  = Some (JsNumber 0 0).
Proof.
  destruct (falsy_stops_lookup Environment.own_only (JsNumber 0 0)
              ["value"] eq_refl) as [_ H].
  change (Environment.getNestedValue Environment.own_only
            (JsObject [("access_token", JsString "abc");
                       ("expires_in", JsNumber 0 0)])
            ["expires_in"; "value"] = Some (JsNumber 0 0)).
  by apply H.
Defined.
